(** * ubc-genai-toolkit-rag: the ingestion and retrieval pipeline

    A shallow embedding of [src/rag-module.ts] (the [RAGModule] facade),
    [src/providers/qdrant-provider.ts] (the default chunker and the
    [QdrantProvider]) and the contracts of [src/types.ts], followed by the
    properties of the pipeline.

    Conventions of the embedding.
    - A JavaScript string is a [string]; one character stands for one
      UTF-16 code unit, so [String.length] is the [.length] of the source.
    - A JavaScript number that the code uses as an index, a size or a limit
      is a [Z]; scores and vector components, which the code only passes
      along, are IEEE doubles ([PrimFloat.float]).
    - A [Record<string, any>] is a [gmap string JsVal].
    - The embeddings module, the Qdrant client and the uuid generator are
      collaborators the code only calls: they are the fields of [Env], and
      every call is also appended to a trace. The collaborators of the
      construction of a module ([InitEnv]) and the file system of the
      example application ([RAGApp.FileSystem]) are modelled the same way,
      without a trace.
    - Calls of the logger are left out: they return and change nothing
      the code reads. The one argument of such a call that can throw while
      it is evaluated, [JSON.stringify(error, null, 2)] in the [catch]
      clause of [addDocument], is kept, as the field [json_stringify] of
      [Env]. *)

From Stdlib Require Import ZArith String Ascii List Bool Lia Floats DecimalString
  DecimalNat.
From stdpp Require Import base option list gmap strings.

Import ListNotations.
Open Scope string_scope.
Open Scope list_scope.
Open Scope Z_scope.

(* ===================================================================== *)
(** * JavaScript strings *)
(* ===================================================================== *)

Module Js.

(** [s.length] *)
Definition length (s : string) : Z := Z.of_nat (String.length s).

(** An argument of [substring] is clamped into [0 .. s.length]. *)
Definition clamp (len x : Z) : Z := Z.min (Z.max x 0) len.

(** [s.substring(start, end)]: both arguments are clamped, and swapped
    when [start] is greater than [end]. *)
Definition substring (s : string) (start end_ : Z) : string :=
  let a := clamp (length s) start in
  let b := clamp (length s) end_ in
  let lo := Z.min a b in
  let hi := Z.max a b in
  String.substring (Z.to_nat lo) (Z.to_nat (hi - lo)) s.

End Js.

(* ===================================================================== *)
(** * The default chunker *)
(* ===================================================================== *)

(** One turn of the [while] loop pushes one chunk; [win_start] records the
    value of [i] the chunk was cut at (it is not part of the result). *)
Record Window := mkWindow { win_start : Z; win_text : string }.

(** The [while (i < text.length)] loop of [simpleChunker]. Every test of
    the loop condition costs one unit of fuel; [None] means the fuel ran
    out, which is how a run that never leaves the loop shows. *)
Fixpoint simpleChunker_loop (fuel : nat) (text : string) (chunkSize overlap : Z)
    (i : Z) (chunks : list Window) : option (list Window) :=
  match fuel with
  | O => None
  | S fuel' =>
      if i <? Js.length text then
        let end_ := Z.min (i + chunkSize) (Js.length text) in
        let chunks' := chunks ++ [mkWindow i (Js.substring text i end_)] in
        let i' := i + (chunkSize - overlap) in
        if end_ =? Js.length text then Some chunks'
        else simpleChunker_loop fuel' text chunkSize overlap i' chunks'
      else Some chunks
  end.

(** [simpleChunker(text, chunkSize, overlap)], with the start of every
    window kept next to its chunk. *)
Definition simpleChunker_windows (fuel : nat) (text : string)
    (chunkSize overlap : Z) : option (list Window) :=
  if Js.length text <=? chunkSize then Some [mkWindow 0 text]
  else simpleChunker_loop fuel text chunkSize overlap 0 [].

(** [simpleChunker(text, chunkSize, overlap)]: the chunks alone. *)
Definition simpleChunker (fuel : nat) (text : string)
    (chunkSize overlap : Z) : option (list string) :=
  map win_text <$> simpleChunker_windows fuel text chunkSize overlap.

(** The default values of the parameters: [chunkSize = 300, overlap = 50]. *)
Definition default_chunkSize : Z := 300.
Definition default_overlap : Z := 50.

(** Fuel that is enough for the loop whenever [overlap < chunkSize]
    (lemma [simpleChunker_loop_total]). *)
Definition chunker_fuel (text : string) : nat := S (String.length text).

(* ===================================================================== *)
(** * Values, errors and the records exchanged with the collaborators *)
(* ===================================================================== *)

(** The values a metadata or payload field holds. *)
Inductive JsVal :=
  | JNull
  | JBool (b : bool)
  | JNum (n : Z)
  | JStr (s : string).

#[global] Instance JsVal_eq_dec : EqDecision JsVal.
Proof. solve_decision. Defined.

(** What a [catch] clause receives: an instance of [Error] with its
    [message], or any other value, kept as its rendering [String(error)]. *)
Inductive Thrown :=
  | ErrorObj (message : string)
  | NonError (rendering : string).

(** [error instanceof Error ? error.message : String(error)] *)
Definition describe (error : Thrown) : string :=
  match error with
  | ErrorObj message => message
  | NonError rendering => rendering
  end.

(** [new Error(prefix + describe(error))] *)
Definition wrap (prefix : string) (error : Thrown) : Thrown :=
  ErrorObj (String.append prefix (describe error)).

(** ** [/not found/i.test(message)] *)

Definition lower_ascii (c : ascii) : ascii :=
  let n := nat_of_ascii c in
  if ((65 <=? n) && (n <=? 90))%nat then ascii_of_nat (n + 32) else c.

Fixpoint lower (s : string) : string :=
  match s with
  | EmptyString => EmptyString
  | String c s' => String (lower_ascii c) (lower s')
  end.

Fixpoint contains (pat s : string) : bool :=
  String.prefix pat s ||
  match s with
  | EmptyString => false
  | String _ s' => contains pat s'
  end.

Definition test_not_found (message : string) : bool :=
  contains "not found" (lower message).

(** ** Points *)

Definition Vector := list float.

(** [ExtendedPointId]: a point id, also the type of a scroll cursor. *)
Inductive PointId :=
  | IdNum (n : Z)
  | IdStr (s : string).

(** The truth value of a point id in a condition: [0] and [''] are falsy. *)
Definition truthy_id (c : PointId) : bool :=
  match c with
  | IdNum n => negb (n =? 0)
  | IdStr s => negb (String.eqb s "")
  end.

(** The truth value of [T | null | undefined]. *)
Definition truthy_cursor (c : option PointId) : bool :=
  match c with
  | Some c => truthy_id c
  | None => false
  end.

(** [PointStruct], the unit of an upsert. *)
Record PointStruct := mkPoint {
  point_id : string;
  point_vector : Vector;
  point_payload : gmap string JsVal
}.

Record UpsertRequest := mkUpsert {
  upsert_wait : bool;
  upsert_points : list PointStruct
}.

(** One condition [{ key, match: { value } }] and the filter [{ must }]. *)
Record FieldCondition := mkCondition {
  cond_key : string;
  cond_match_value : JsVal
}.

Record Filter := mkFilter { must : list FieldCondition }.

(** The search request of the Qdrant client; [search_filter] is the
    optional [filter] field of that request. *)
Record SearchRequest := mkSearch {
  search_vector : Vector;
  search_limit : Z;
  search_score_threshold : option float;
  search_filter : option Filter;
  search_with_payload : bool;
  search_with_vector : bool
}.

(** A hit of a search: [payload] may be [null] or [undefined]. *)
Record ScoredPoint := mkHit {
  hit_id : PointId;
  hit_score : float;
  hit_payload : option (gmap string JsVal)
}.

Record ScrollRequest := mkScroll {
  scroll_filter : Filter;
  scroll_limit : Z;
  scroll_offset : option PointId;
  scroll_with_payload : bool;
  scroll_with_vector : bool
}.

(** A stored point as a scroll returns it ([Schemas['Record']]). *)
Record StoredPoint := mkStored {
  stored_id : PointId;
  stored_payload : option (gmap string JsVal);
  stored_vector : option Vector
}.

Record ScrollResponse := mkPage {
  points : list StoredPoint;
  next_page_offset : option PointId
}.

Inductive DeleteSelector :=
  | ByPoints (ids : list string)
  | ByFilter (filter : Filter).

Record DeleteRequest := mkDelete {
  delete_selector : DeleteSelector;
  delete_wait : bool
}.

(** ** The types of [types.ts] *)

Inductive QdrantDistanceMetric := Cosine | Euclid | Dot.

Record QdrantConfig := mkQdrantConfig {
  url : string;
  apiKey : option string;
  collectionName : string;
  vectorSize : Z;
  distanceMetric : QdrantDistanceMetric
}.

Record RetrievedChunk := mkChunk {
  chunk_content : JsVal;
  chunk_score : float;
  chunk_metadata : option (gmap string JsVal)
}.

Record RetrievalOptions := mkOptions {
  opt_limit : option Z;
  opt_scoreThreshold : option float;
  opt_filter : option (gmap string JsVal)
}.

(** The fields of [RAGConfig] the operations read. *)
Record RAGConfig := mkRAGConfig {
  qdrantConfig : QdrantConfig;
  debug : bool;
  defaultRetrievalLimit : option Z;
  defaultScoreThreshold : option float
}.

(** The object [getDocumentsByMetadata] returns for a point. *)
Record FoundDocument := mkFound {
  found_id : PointId;
  found_content : option JsVal;
  found_metadata : option (gmap string JsVal);
  found_vector : option Vector
}.

(* ===================================================================== *)
(** * The collaborators and the world the operations run in *)
(* ===================================================================== *)

(** A call of a collaborator, as the trace keeps it. *)
Inductive Call :=
  | CallEmbed (texts : list string)
  | CallUpsert (collection : string) (request : UpsertRequest)
  | CallSearch (collection : string) (request : SearchRequest)
  | CallScroll (collection : string) (request : ScrollRequest)
  | CallDelete (collection : string) (request : DeleteRequest)
  | CallDeleteCollection (collection : string).

(** The calls that reach the vector store. *)
Definition is_store_call (c : Call) : bool :=
  match c with
  | CallEmbed _ => false
  | _ => true
  end.

(** The collaborators: [Store] is the state of the vector database,
    [Emb] the state of the embeddings service. A call answers with a
    value or throws. [uuid k] is the [k]-th value [uuidv4()] produces.
    [json_stringify error] is [JSON.stringify(error, null, 2)] on a thrown
    value: its text, or the [TypeError] it throws on a value JSON cannot
    render (a [BigInt] field, a cycle); this depends on fields of the
    value that [Thrown] does not keep. *)
Record Env (Store Emb : Type) := mkEnv {
  embed : list string -> Emb -> (Thrown + list (option Vector)) * Emb;
  uuid : nat -> string;
  client_upsert : string -> UpsertRequest -> Store -> (Thrown + unit) * Store;
  client_search :
    string -> SearchRequest -> Store -> (Thrown + list ScoredPoint) * Store;
  client_scroll :
    string -> ScrollRequest -> Store -> (Thrown + ScrollResponse) * Store;
  client_delete : string -> DeleteRequest -> Store -> (Thrown + unit) * Store;
  client_deleteCollection : string -> Store -> (Thrown + bool) * Store;
  json_stringify : Thrown -> Thrown + string
}.

Arguments embed {Store Emb}.
Arguments uuid {Store Emb}.
Arguments client_upsert {Store Emb}.
Arguments client_search {Store Emb}.
Arguments client_scroll {Store Emb}.
Arguments client_delete {Store Emb}.
Arguments client_deleteCollection {Store Emb}.
Arguments json_stringify {Store Emb}.

Record World (Store Emb : Type) := mkWorld {
  store : Store;
  embedder : Emb;
  uuid_count : nat;
  calls : list Call
}.

Arguments mkWorld {Store Emb}.
Arguments store {Store Emb}.
Arguments embedder {Store Emb}.
Arguments uuid_count {Store Emb}.
Arguments calls {Store Emb}.

(** How a run of an operation ends: with a value, with an exception, or
    not at all within the fuel given to its loops. *)
Inductive Outcome (A : Type) :=
  | Done (a : A)
  | Raised (error : Thrown)
  | Stalled.

Arguments Done {A}.
Arguments Raised {A}.
Arguments Stalled {A}.

(* ===================================================================== *)
(** * The monad of the operations: state, exceptions and fuel *)
(* ===================================================================== *)

Section Effects.

Context {Store Emb : Type}.
Variable env : Env Store Emb.

Definition M (A : Type) : Type :=
  World Store Emb -> Outcome A * World Store Emb.

Definition ret {A} (a : A) : M A := fun w => (Done a, w).

Definition bind {A B} (m : M A) (k : A -> M B) : M B :=
  fun w =>
    match m w with
    | (Done a, w') => k a w'
    | (Raised e, w') => (Raised e, w')
    | (Stalled, w') => (Stalled, w')
    end.

Definition throw {A} (e : Thrown) : M A := fun w => (Raised e, w).

Definition stall {A} : M A := fun w => (Stalled, w).

(** [try { body } catch (error) { handler }] *)
Definition try_catch {A} (body : M A) (handler : Thrown -> M A) : M A :=
  fun w =>
    match body w with
    | (Raised e, w') => handler e w'
    | r => r
    end.

#[global] Instance M_ret : MRet M := @ret.
#[global] Instance M_bind : MBind M := fun A B k m => bind m k.

(** A call of the vector store: logged, then answered by the store. *)
Definition call_store {A} (c : Call)
    (f : Store -> (Thrown + A) * Store) : M A :=
  fun w =>
    let '(r, s') := f (store w) in
    let w' := mkWorld s' (embedder w) (uuid_count w) (calls w ++ [c]) in
    match r with
    | inl e => (Raised e, w')
    | inr a => (Done a, w')
    end.

(** [this.embeddings.embed(texts)] *)
Definition embeddings_embed (texts : list string) : M (list (option Vector)) :=
  fun w =>
    let '(r, e') := embed env texts (embedder w) in
    let w' :=
      mkWorld (store w) e' (uuid_count w) (calls w ++ [CallEmbed texts]) in
    match r with
    | inl e => (Raised e, w')
    | inr a => (Done a, w')
    end.

(** [uuidv4()] *)
Definition uuidv4 : M string :=
  fun w =>
    (Done (uuid env (uuid_count w)),
     mkWorld (store w) (embedder w) (S (uuid_count w)) (calls w)).

Definition upsert (collection : string) (request : UpsertRequest) : M unit :=
  call_store (CallUpsert collection request)
             (client_upsert env collection request).

Definition search (collection : string) (request : SearchRequest)
    : M (list ScoredPoint) :=
  call_store (CallSearch collection request)
             (client_search env collection request).

Definition scroll (collection : string) (request : ScrollRequest)
    : M ScrollResponse :=
  call_store (CallScroll collection request)
             (client_scroll env collection request).

Definition delete_points (collection : string) (request : DeleteRequest)
    : M unit :=
  call_store (CallDelete collection request)
             (client_delete env collection request).

Definition deleteCollection (collection : string) : M bool :=
  call_store (CallDeleteCollection collection)
             (client_deleteCollection env collection).

End Effects.

(* ===================================================================== *)
(** * QdrantProvider *)
(* ===================================================================== *)

Module QdrantProvider.

Section Provider.

Context {Store Emb : Type}.
Variable env : Env Store Emb.
Variable config : QdrantConfig.

#[local] Abbreviation M := (@M Store Emb).

(** ** addDocument *)

(** The payload of the point of chunk [i]:
    [{ ...metadata, content: chunks[i], chunkIndex: i }]. *)
Definition chunk_payload (metadata : gmap string JsVal) (chunk : string)
    (i : nat) : gmap string JsVal :=
  <["chunkIndex" := JNum (Z.of_nat i)]> (<["content" := JStr chunk]> metadata).

(** The [for] loop of step 3, from index [i] on; [rest] holds
    [chunks[i..]], so its head is [chunks[i]]. A chunk whose embedding is
    falsy is skipped ([continue]); an array is always truthy. *)
Fixpoint addDocument_loop (embeddings : list (option Vector))
    (metadata : gmap string JsVal) (i : nat) (rest : list string)
    (points : list PointStruct) (addedChunkIds : list string)
    : M (list PointStruct * list string) :=
  match rest with
  | [] => ret (points, addedChunkIds)
  | chunk :: rest' =>
      match embeddings !! i with
      | Some (Some embedding) =>
          chunkId ← uuidv4 env;
          addDocument_loop embeddings metadata (S i) rest'
            (points ++ [mkPoint chunkId embedding
                          (chunk_payload metadata chunk i)])
            (addedChunkIds ++ [chunkId])
      | _ => addDocument_loop embeddings metadata (S i) rest'
               points addedChunkIds
      end
  end.

(** The [catch] clause of the upsert: the error is first rendered for the
    log with [JSON.stringify(error, null, 2)], which may throw itself, and
    then thrown wrapped. *)
Definition upsert_failed (error : Thrown) : M (list string) :=
  match json_stringify env error with
  | inl typeError => throw typeError
  | inr _ => throw (wrap "Qdrant upsert failed: " error)
  end.

(** [addDocument] from the line after [const chunks = simpleChunker(content)]. *)
Definition addDocument_chunks (chunks : list string)
    (metadata : gmap string JsVal) : M (list string) :=
  if (length chunks =? 0)%nat then ret []
  else
    embeddings ← embeddings_embed env chunks;
    r ← addDocument_loop embeddings metadata 0 chunks [] [];
    let '(points, addedChunkIds) := r in
    if (length points =? 0)%nat then ret []
    else
      try_catch
        (upsert env (collectionName config) (mkUpsert true points) ;;
         ret addedChunkIds)
        upsert_failed.

(** [addDocument(content, metadata = {})] *)
Definition addDocument (content : string)
    (metadata : option (gmap string JsVal)) : M (list string) :=
  match simpleChunker (chunker_fuel content) content
          default_chunkSize default_overlap with
  | Some chunks => addDocument_chunks chunks (default ∅ metadata)
  | None => stall
  end.

(** ** retrieveContext *)

(** The function mapped over the hits. *)
Definition toRetrievedChunk (point : ScoredPoint) : RetrievedChunk :=
  let payload := hit_payload point in
  (* payload?.content ?? '' *)
  let content :=
    match payload ≫= (fun p => p !! "content") with
    | None | Some JNull => JStr ""
    | Some v => v
    end in
  (* { ...payload } and delete metadata.content *)
  let metadata := delete "content" (default ∅ payload) in
  mkChunk content (hit_score point)
    (if (0 <? length (map_to_list metadata))%nat then Some metadata else None).

(** [options] defaults to [{}] in the provider. *)
Definition no_options : RetrievalOptions := mkOptions None None None.

Definition retrieveContext (queryText : string) (options : RetrievalOptions)
    : M (list RetrievedChunk) :=
  r ← embeddings_embed env [queryText];
  match head r with
  | Some (Some queryVector) =>
      try_catch
        (searchResult ←
           search env (collectionName config)
             (mkSearch queryVector
                (default 5 (opt_limit options))
                (opt_scoreThreshold options)
                None
                true
                false);
         ret (map toRetrievedChunk searchResult))
        (fun error => throw (wrap "Qdrant search failed: " error))
  | _ => throw (ErrorObj "Failed to generate embedding for the query text.")
  end.

(** ** getDocumentsByMetadata *)

(** [Object.entries(filter).map(([key, value]) => ({ key, match: { value } }))] *)
Definition conditions (filter : gmap string JsVal) : list FieldCondition :=
  map (fun kv => mkCondition (fst kv) (snd kv)) (map_to_list filter).

Definition page_size : Z := 250.

(** The [do ... while (nextPageOffset)] loop; every request of a page
    costs one unit of fuel. *)
Fixpoint scroll_loop (fuel : nat) (filter : gmap string JsVal)
    (allPoints : list StoredPoint) (nextPageOffset : option PointId)
    : M (list StoredPoint) :=
  match fuel with
  | O => stall
  | S fuel' =>
      response ←
        scroll env (collectionName config)
          (mkScroll (mkFilter (conditions filter)) page_size nextPageOffset
             true true);
      let allPoints' :=
        if (0 <? length (points response))%nat
        then allPoints ++ points response else allPoints in
      if truthy_cursor (next_page_offset response)
      then scroll_loop fuel' filter allPoints' (next_page_offset response)
      else ret allPoints'
  end.

(** The function mapped over the accumulated points. *)
Definition toFoundDocument (point : StoredPoint) : FoundDocument :=
  mkFound (stored_id point)
    (stored_payload point ≫= (fun p => p !! "content"))
    (stored_payload point)
    (stored_vector point).

Definition getDocumentsByMetadata (fuel : nat) (filter : gmap string JsVal)
    : M (list FoundDocument) :=
  try_catch
    (allPoints ← scroll_loop fuel filter [] None;
     ret (map toFoundDocument allPoints))
    (fun error => throw (wrap "Qdrant scroll failed: " error)).

(** ** deleteDocumentsByIds, deleteDocumentsByMetadata, deleteStorage *)

Definition deleteDocumentsByIds (ids : list string) : M unit :=
  if (length ids =? 0)%nat then ret tt
  else
    try_catch
      (delete_points env (collectionName config) (mkDelete (ByPoints ids) true))
      (fun error => throw (wrap "Qdrant deletion by ID failed: " error)).

Definition deleteDocumentsByMetadata (filter : gmap string JsVal) : M unit :=
  if (length (map_to_list filter) =? 0)%nat then ret tt
  else
    try_catch
      (delete_points env (collectionName config)
         (mkDelete (ByFilter (mkFilter (conditions filter))) true))
      (fun error => throw (wrap "Qdrant deletion by filter failed: " error)).

(** The test of the [catch] clause of [deleteStorage]:
    [error instanceof Error && /not found/i.test(error.message)]. *)
Definition is_not_found (error : Thrown) : bool :=
  match error with
  | ErrorObj message => test_not_found message
  | NonError _ => false
  end.

Definition deleteStorage : M unit :=
  try_catch
    (result ← deleteCollection env (collectionName config);
     if (result : bool) then ret tt else ret tt)
    (fun error =>
       if is_not_found error then ret tt
       else throw (wrap "Qdrant collection deletion failed: " error)).

End Provider.

End QdrantProvider.

(* ===================================================================== *)
(** * RAGModule, the facade *)
(* ===================================================================== *)

Module RAGModule.

(** The members [RAGModuleInterface] declares in [types.ts]. *)
Definition RAGModuleInterface_methods : list string :=
  [ "addDocument"; "retrieveContext"; "deleteDocumentsByIds";
    "deleteDocumentsByMetadata"; "getDocumentsByMetadata"; "deleteStorage" ].

(** The members the body of [class RAGModule] defines, in source order. *)
Definition class_methods : list string :=
  [ "validateAndBuildConfig"; "create"; "initialize"; "ensureInitialized";
    "addDocument"; "retrieveContext"; "deleteDocumentsByIds";
    "deleteDocumentsByMetadata"; "deleteStorage" ].

(** A call of a member of the public contract, with its arguments. *)
Inductive Request :=
  | AddDocument (content : string) (metadata : option (gmap string JsVal))
  | RetrieveContext (queryText : string) (options : option RetrievalOptions)
  | DeleteDocumentsByIds (ids : list string)
  | DeleteDocumentsByMetadata (filter : gmap string JsVal)
  | GetDocumentsByMetadata (filter : gmap string JsVal)
  | DeleteStorage.

Definition member (r : Request) : string :=
  match r with
  | AddDocument _ _ => "addDocument"
  | RetrieveContext _ _ => "retrieveContext"
  | DeleteDocumentsByIds _ => "deleteDocumentsByIds"
  | DeleteDocumentsByMetadata _ => "deleteDocumentsByMetadata"
  | GetDocumentsByMetadata _ => "getDocumentsByMetadata"
  | DeleteStorage => "deleteStorage"
  end.

Inductive Response :=
  | ChunkIds (ids : list string)
  | Chunks (chunks : list RetrievedChunk)
  | Documents (documents : list FoundDocument)
  | Void.

Section Facade.

Context {Store Emb : Type}.
Variable env : Env Store Emb.

#[local] Abbreviation M := (@M Store Emb).

(** The fields of an instance; [ragProvider] is the [QdrantProvider] built
    from [config.qdrantConfig]. *)
Record t := mkModule {
  config : RAGConfig;
  isInitialized : bool
}.

Definition ensureInitialized (this : t) : M unit :=
  if isInitialized this then ret tt
  else throw (ErrorObj
    "RAGModule has not been initialized. Call RAGModule.create() first.").

Definition addDocument (this : t) (content : string)
    (metadata : option (gmap string JsVal)) : M (list string) :=
  ensureInitialized this ;;
  QdrantProvider.addDocument env (qdrantConfig (config this)) content metadata.

(** [a ?? b] on an optional field. *)
Definition nullish {A} (a b : option A) : option A :=
  match a with
  | Some x => Some x
  | None => b
  end.

Definition retrieveContext (this : t) (queryText : string)
    (options : option RetrievalOptions) : M (list RetrievedChunk) :=
  ensureInitialized this ;;
  let finalOptions :=
    mkOptions
      (nullish (options ≫= opt_limit) (defaultRetrievalLimit (config this)))
      (nullish (options ≫= opt_scoreThreshold)
               (defaultScoreThreshold (config this)))
      (options ≫= opt_filter) in
  QdrantProvider.retrieveContext env (qdrantConfig (config this))
    queryText finalOptions.

Definition deleteDocumentsByIds (this : t) (ids : list string) : M unit :=
  ensureInitialized this ;;
  QdrantProvider.deleteDocumentsByIds env (qdrantConfig (config this)) ids.

Definition deleteDocumentsByMetadata (this : t)
    (filter : gmap string JsVal) : M unit :=
  ensureInitialized this ;;
  QdrantProvider.deleteDocumentsByMetadata env (qdrantConfig (config this))
    filter.

Definition deleteStorage (this : t) : M unit :=
  ensureInitialized this ;;
  QdrantProvider.deleteStorage env (qdrantConfig (config this)).

(** [this[member](...args)] on an instance: a member the class does not
    define is [undefined], and calling it throws a [TypeError], which is an
    instance of [Error]. *)
Definition invoke (this : t) (r : Request) : M Response :=
  match r with
  | AddDocument content metadata =>
      ids ← addDocument this content metadata; ret (ChunkIds ids)
  | RetrieveContext queryText options =>
      chunks ← retrieveContext this queryText options; ret (Chunks chunks)
  | DeleteDocumentsByIds ids =>
      deleteDocumentsByIds this ids ;; ret Void
  | DeleteDocumentsByMetadata filter =>
      deleteDocumentsByMetadata this filter ;; ret Void
  | DeleteStorage =>
      deleteStorage this ;; ret Void
  | GetDocumentsByMetadata _ =>
      throw (ErrorObj "ragModule.getDocumentsByMetadata is not a function")
  end.

End Facade.

End RAGModule.

(* ===================================================================== *)
(** * A small scripted environment, for running the operations *)
(* ===================================================================== *)

Module Mock.

(** The store answers scrolls from a script of pages, searches with a
    fixed list of hits, and knows whether its collection exists. *)
Record Store := mkStore {
  collection_exists : bool;
  stored : list PointStruct;
  pages : list ScrollResponse;
  hits : list ScoredPoint
}.

(** The embeddings service fails on the texts of this list. *)
Definition Emb := list string.

Definition embed (texts : list string) (failing : Emb)
    : (Thrown + list (option Vector)) * Emb :=
  (inr (map (fun t => if bool_decide (t ∈ failing) then None
                      else Some [1%float]) texts),
   failing).

Definition uuid (k : nat) : string :=
  String.append "uuid-" (NilEmpty.string_of_uint (Nat.to_uint k)).

Definition client_upsert (collection : string) (request : UpsertRequest)
    (s : Store) : (Thrown + unit) * Store :=
  (inr tt,
   mkStore (collection_exists s) (stored s ++ upsert_points request)
     (pages s) (hits s)).

Definition client_search (collection : string) (request : SearchRequest)
    (s : Store) : (Thrown + list ScoredPoint) * Store :=
  (inr (hits s), s).

Definition client_scroll (collection : string) (request : ScrollRequest)
    (s : Store) : (Thrown + ScrollResponse) * Store :=
  match pages s with
  | [] => (inr (mkPage [] None), s)
  | page :: rest =>
      (inr page, mkStore (collection_exists s) (stored s) rest (hits s))
  end.

Definition client_delete (collection : string) (request : DeleteRequest)
    (s : Store) : (Thrown + unit) * Store :=
  (inr tt, s).

Definition client_deleteCollection (collection : string) (s : Store)
    : (Thrown + bool) * Store :=
  if collection_exists s
  then (inr true, mkStore false [] (pages s) (hits s))
  else (inl (ErrorObj "Not found: Collection `docs` doesn't exist!"), s).

(** The errors of this store are plain [Error]s, which JSON renders. *)
Definition json_stringify (error : Thrown) : Thrown + string := inr "{}".

Definition env : Env Store Emb :=
  mkEnv Store Emb embed uuid client_upsert client_search client_scroll
    client_delete client_deleteCollection json_stringify.

Definition qdrant : QdrantConfig :=
  mkQdrantConfig "http://localhost:6333" None "docs" 4 Cosine.

Definition world (s : Store) (failing : Emb) : World Store Emb :=
  mkWorld s failing 0 [].

Definition empty_store : Store := mkStore true [] [] [].

(** A text longer than two default windows. *)
Definition long_text : string :=
  string_of_list_ascii (List.repeat "a"%char 700).

End Mock.

(* ===================================================================== *)
(** * Notions used to state the properties *)
(* ===================================================================== *)

(** The embedding at index [i] is present ([embeddings[i]] is an array). *)
Definition present (embeddings : list (option Vector)) (i : nat) : bool :=
  match embeddings !! i with
  | Some (Some _) => true
  | _ => false
  end.

(** The indices of the chunks whose embedding is present, in chunk order. *)
Definition kept_indices (embeddings : list (option Vector)) (n : nat)
    : list nat :=
  List.filter (present embeddings) (seq 0 n).

(** The points the loop of [addDocument] builds from the chunks [rest],
    the first of which has index [i], when the next id is the [n]-th one
    of the generator. *)
Fixpoint built_points (uuid : nat -> string)
    (embeddings : list (option Vector)) (metadata : gmap string JsVal)
    (i n : nat) (rest : list string) : list PointStruct :=
  match rest with
  | [] => []
  | chunk :: rest' =>
      match embeddings !! i with
      | Some (Some embedding) =>
          mkPoint (uuid n) embedding
            (QdrantProvider.chunk_payload metadata chunk i)
          :: built_points uuid embeddings metadata (S i) (S n) rest'
      | _ => built_points uuid embeddings metadata (S i) n rest'
      end
  end.

(** The calls of a trace that reach the vector store. *)
Definition store_calls (trace : list Call) : list Call :=
  List.filter is_store_call trace.

(** A run of the paginated scan against the store: the requests carry the
    filter [f], the fixed page size, the cursor of the previous answer, and
    ask for payloads and vectors. The run goes on while the answer carries
    a cursor the loop takes for one ([truthy_cursor]: present, and neither
    [0] nor ['']), and ends with the first answer that does not. Each step
    is the cursor sent and the page received. *)
Inductive ScrollRun {Store Emb : Type} (env : Env Store Emb)
    (collection : string) (f : Filter)
    : option PointId -> Store ->
      list (option PointId * ScrollResponse) -> Store -> Prop :=
  | run_last (offset : option PointId) (s s' : Store) (page : ScrollResponse) :
      client_scroll env collection (mkScroll f QdrantProvider.page_size offset true true) s
        = (inr page, s') ->
      truthy_cursor (next_page_offset page) = false ->
      ScrollRun env collection f offset s [(offset, page)] s'
  | run_more (offset : option PointId) (s s1 s' : Store)
      (page : ScrollResponse)
      (rest : list (option PointId * ScrollResponse)) :
      client_scroll env collection (mkScroll f QdrantProvider.page_size offset true true) s
        = (inr page, s1) ->
      truthy_cursor (next_page_offset page) = true ->
      ScrollRun env collection f (next_page_offset page) s1 rest s' ->
      ScrollRun env collection f offset s ((offset, page) :: rest) s'.

(** The request of a page, as the loop builds it. *)
Definition page_request (filter : gmap string JsVal)
    (offset : option PointId) : ScrollRequest :=
  mkScroll (mkFilter (QdrantProvider.conditions filter)) 250 offset true true.

(** A message that says "not found": it contains these nine characters,
    each letter in either case. *)
Definition says_not_found (message : string) : Prop :=
  exists pre mid post : string,
    message = String.append pre (String.append mid post)
    /\ lower mid = "not found".

(** The answers of the store to a deletion of the collection that mean
    "deleted, or there was nothing to delete": a result, [true] or [false],
    or an [Error] whose message says "not found". *)
Definition deleted_or_absent (answer : Thrown + bool) : Prop :=
  match answer with
  | inr _ => True
  | inl (ErrorObj message) => says_not_found message
  | inl (NonError _) => False
  end.

(* ===================================================================== *)
(** * Construction and initialization *)
(* ===================================================================== *)

(** The collaborators called while a module is created. Their calls are
    not kept in the trace; what they do is read off the store. *)
Record InitEnv (Store Emb : Type) := mkInitEnv {
  (* [EmbeddingsModule.create({ ...embeddingsConfig, logger, debug })] *)
  embeddings_create :
    gmap string JsVal -> bool -> Emb -> (Thrown + unit) * Emb;
  (* [client.getCollections()]: the names of the collections *)
  client_getCollections : Store -> (Thrown + list string) * Store;
  (* [client.createCollection(name, { vectors: { size, distance } })] *)
  client_createCollection :
    string -> Z -> QdrantDistanceMetric -> Store -> (Thrown + bool) * Store
}.

Arguments embeddings_create {Store Emb}.
Arguments client_getCollections {Store Emb}.
Arguments client_createCollection {Store Emb}.

(** A call of the store at initialization. *)
Definition init_store {Store Emb A : Type}
    (f : Store -> (Thrown + A) * Store) : @M Store Emb A :=
  fun w =>
    let '(r, s') := f (store w) in
    let w' := mkWorld s' (embedder w) (uuid_count w) (calls w) in
    match r with
    | inl e => (Raised e, w')
    | inr a => (Done a, w')
    end.

(** A call of the embeddings service at initialization. *)
Definition init_embedder {Store Emb A : Type}
    (f : Emb -> (Thrown + A) * Emb) : @M Store Emb A :=
  fun w =>
    let '(r, e') := f (embedder w) in
    let w' := mkWorld (store w) e' (uuid_count w) (calls w) in
    match r with
    | inl e => (Raised e, w')
    | inr a => (Done a, w')
    end.

Module QdrantProviderSetup.

Section Setup.

Context {Store Emb : Type}.
Variable ienv : InitEnv Store Emb.
Variable config : QdrantConfig.

#[local] Abbreviation M := (@M Store Emb).

(** [QdrantProvider.initialize()] *)
Definition initialize : M unit :=
  try_catch
    (collections ← init_store (client_getCollections ienv);
     let collectionExists :=
       existsb (fun name => String.eqb name (collectionName config))
         collections in
     if negb collectionExists
     then
       init_store
         (client_createCollection ienv (collectionName config)
            (vectorSize config) (distanceMetric config)) ;;
       ret tt
     else ret tt)
    (fun error => throw (wrap "Qdrant initialization failed: " error)).

End Setup.

End QdrantProviderSetup.

Module RAGModuleSetup.

(** [chunkingConfig]: a configuration of the chunking module, or a function. *)
Inductive ChunkingChoice :=
  | ChunkingModuleConfig (options : gmap string JsVal)
  | CustomChunker (chunk : string -> list string).

(** [qdrantConfig] as the constructor receives it: the fields the
    validation tests may be missing. *)
Record QdrantConfigInput := mkQdrantInput {
  in_url : string;
  in_apiKey : option string;
  in_collectionName : option string;
  in_vectorSize : option Z;
  in_distanceMetric : option QdrantDistanceMetric
}.

(** The configuration object as the constructor receives it. *)
Record RAGConfigInput := mkRAGInput {
  in_provider : option string;
  in_qdrantConfig : option QdrantConfigInput;
  in_embeddingsConfig : option (gmap string JsVal);
  in_chunkingConfig : option ChunkingChoice;
  in_debug : option bool;
  in_defaultRetrievalLimit : option Z;
  in_defaultScoreThreshold : option float
}.

(** [!s] on an optional string: [undefined] and [''] are falsy. *)
Definition falsy_string (s : option string) : bool :=
  match s with
  | None => true
  | Some s => String.eqb s ""
  end.

Definition is_qdrant (provider : option string) : bool :=
  match provider with
  | Some p => String.eqb p "qdrant"
  | None => false
  end.

(** [validateAndBuildConfig(config)]: the error thrown, or the
    configuration with its defaults set. *)
Definition validateAndBuildConfig (config : RAGConfigInput)
    : Thrown + RAGConfigInput :=
  if falsy_string (in_provider config) then
    inl (ErrorObj "RAG provider type must be specified in config.")
  else
    match is_qdrant (in_provider config), in_qdrantConfig config with
    | true, None =>
        inl (ErrorObj "qdrantConfig must be provided when provider is qdrant.")
    | true, Some q =>
        if falsy_string (in_collectionName q) then
          inl (ErrorObj "qdrantConfig.collectionName must be specified.")
        else
          match in_vectorSize q, in_distanceMetric q,
                in_embeddingsConfig config with
          | None, _, _ =>
              inl (ErrorObj "qdrantConfig.vectorSize must be specified.")
          | Some _, None, _ =>
              inl (ErrorObj "qdrantConfig.distanceMetric must be specified.")
          | Some _, Some _, None =>
              inl (ErrorObj
                "embeddingsConfig must be provided to handle internal embedding generation.")
          | Some _, Some _, Some _ =>
              inr (mkRAGInput (in_provider config) (in_qdrantConfig config)
                     (in_embeddingsConfig config) (in_chunkingConfig config)
                     (Some (default false (in_debug config)))
                     (Some (default 5 (in_defaultRetrievalLimit config)))
                     (in_defaultScoreThreshold config))
          end
    | false, _ =>
        match in_embeddingsConfig config with
        | None =>
            inl (ErrorObj
              "embeddingsConfig must be provided to handle internal embedding generation.")
        | Some _ =>
            inr (mkRAGInput (in_provider config) (in_qdrantConfig config)
                   (in_embeddingsConfig config) (in_chunkingConfig config)
                   (Some (default false (in_debug config)))
                   (Some (default 5 (in_defaultRetrievalLimit config)))
                   (in_defaultScoreThreshold config))
        end
    end.

(** The [QdrantConfig] the provider reads, when all its fields are there. *)
Definition provider_config (q : QdrantConfigInput) : option QdrantConfig :=
  match in_collectionName q, in_vectorSize q, in_distanceMetric q with
  | Some name, Some size, Some metric =>
      Some (mkQdrantConfig (in_url q) (in_apiKey q) name size metric)
  | _, _, _ => None
  end.

(** The module [create] returns for a valid configuration of the provider
    ['qdrant'] whose collection is [name], with [size] and [metric]. *)
Definition ready_module (q : QdrantConfigInput) (name : string) (size : Z)
    (metric : QdrantDistanceMetric) (config : RAGConfigInput) : RAGModule.t :=
  RAGModule.mkModule
    (mkRAGConfig (mkQdrantConfig (in_url q) (in_apiKey q) name size metric)
       (default false (in_debug config))
       (Some (default 5 (in_defaultRetrievalLimit config)))
       (in_defaultScoreThreshold config))
    true.

Section Create.

Context {Store Emb : Type}.
Variable ienv : InitEnv Store Emb.

#[local] Abbreviation M := (@M Store Emb).

(** [initialize()] of a freshly constructed module whose stored
    configuration is [config]; the value is the module once ready. A
    provider configuration with a missing field, which the validation
    excludes, would make the provider fail on its first access. *)
Definition initialize (config : RAGConfigInput) : M RAGModule.t :=
  try_catch
    (match in_embeddingsConfig config with
     | None =>
         throw (ErrorObj
           "Internal error: embeddingsConfig is missing during initialization.")
     | Some embeddingsConfig =>
         init_embedder
           (embeddings_create ienv embeddingsConfig
              (default false (in_debug config))) ;;
         if is_qdrant (in_provider config) then
           match in_qdrantConfig config ≫= provider_config with
           | Some qdrant =>
               QdrantProviderSetup.initialize ienv qdrant ;;
               ret (RAGModule.mkModule
                      (mkRAGConfig qdrant (default false (in_debug config))
                         (in_defaultRetrievalLimit config)
                         (in_defaultScoreThreshold config))
                      true)
           | None =>
               throw (ErrorObj
                 "Cannot read properties of undefined")
           end
         else
           throw (ErrorObj (String.append "Unsupported RAG provider: "
                              (default "undefined" (in_provider config))))
     end)
    (fun error => throw (wrap "RAGModule initialization failed: " error)).

(** [RAGModule.create(config)]: the constructor validates, outside of any
    [try]; then the module is initialized. *)
Definition create (config : RAGConfigInput) : M RAGModule.t :=
  match validateAndBuildConfig config with
  | inl error => throw error
  | inr validated => initialize validated
  end.

End Create.

End RAGModuleSetup.

(* ===================================================================== *)
(** * The example application: indexing a directory *)
(* ===================================================================== *)

Module RAGApp.

(** What the application reads of the file system: whether the data
    directory exists, its listing, and the content of a file of it. *)
Record FileSystem := mkFileSystem {
  existsSync : bool;
  readdirSync : Thrown + list string;
  readFileSync : string -> Thrown + string
}.

(** [s.endsWith(suffix)] *)
Definition endsWith (s suffix : string) : bool :=
  (String.length suffix <=? String.length s)%nat
  && String.eqb
       (String.substring (String.length s - String.length suffix)
          (String.length suffix) s)
       suffix.

Section App.

Context {Store Emb : Type}.
Variable env : Env Store Emb.
Variable fs : FileSystem.
Variable rag : RAGModule.t.

#[local] Abbreviation M := (@M Store Emb).

(** The body of [for (const file of files)]: read, index, and on any
    error go on with the next file. *)
Definition indexFile (file : string) : M unit :=
  try_catch
    (match readFileSync fs file with
     | inl error => throw error
     | inr content =>
         RAGModule.addDocument env rag content
           (Some {["source" := JStr file]}) ;;
         ret tt
     end)
    (fun fileError => ret tt).

Fixpoint indexFiles (files : list string) : M unit :=
  match files with
  | [] => ret tt
  | file :: rest => indexFile file ;; indexFiles rest
  end.

(** [indexData()] *)
Definition indexData : M unit :=
  try_catch
    (if negb (existsSync fs) then ret tt
     else
       match readdirSync fs with
       | inl error => throw error
       | inr names =>
           let files := List.filter (fun f => endsWith f ".md") names in
           if (length files =? 0)%nat then ret tt
           else indexFiles files
       end)
    (fun error => throw (ErrorObj "Data indexing failed.")).

End App.

End RAGApp.

(** ** The scripted environment, at initialization *)

Module MockInit.

Definition embeddings_create (embeddingsConfig : gmap string JsVal)
    (debug : bool) (e : Mock.Emb) : (Thrown + unit) * Mock.Emb :=
  (inr tt, e).

(** The store lists its collection, ["docs"], when it exists. *)
Definition client_getCollections (s : Mock.Store)
    : (Thrown + list string) * Mock.Store :=
  (inr (if Mock.collection_exists s then ["other"; "docs"] else ["other"]), s).

Definition client_createCollection (name : string) (size : Z)
    (metric : QdrantDistanceMetric) (s : Mock.Store)
    : (Thrown + bool) * Mock.Store :=
  (inr true,
   Mock.mkStore true (Mock.stored s) (Mock.pages s) (Mock.hits s)).

Definition ienv : InitEnv Mock.Store Mock.Emb :=
  mkInitEnv Mock.Store Mock.Emb embeddings_create client_getCollections
    client_createCollection.

Definition qdrant_input : RAGModuleSetup.QdrantConfigInput :=
  RAGModuleSetup.mkQdrantInput "http://localhost:6333" None (Some "docs")
    (Some 4) (Some Cosine).

Definition input : RAGModuleSetup.RAGConfigInput :=
  RAGModuleSetup.mkRAGInput (Some "qdrant") (Some qdrant_input)
    (Some {["providerType" := JStr "fastembed"]}) None None None None.

Definition absent_store : Mock.Store := Mock.mkStore false [] [] [].

Definition ready : RAGModule.t :=
  RAGModule.mkModule (mkRAGConfig Mock.qdrant false (Some 5) None) true.

Definition files : RAGApp.FileSystem :=
  RAGApp.mkFileSystem true
    (inr ["a.md"; "notes.txt"; "broken.md"; "b.md"])
    (fun file =>
       if String.eqb file "broken.md"
       then inl (ErrorObj "EACCES: permission denied")
       else inr (String.append "content of " file)).

End MockInit.

(** ** Scripted environments with a failing collaborator *)

Module MockFaults.

Definition down : Thrown := ErrorObj "connect ECONNREFUSED 127.0.0.1:6333".



(** A store every call of which throws. *)
Definition store_down {A : Type} (s : Mock.Store) : (Thrown + A) * Mock.Store :=
  (inl down, s).

Definition env_store_down : Env Mock.Store Mock.Emb :=
  mkEnv Mock.Store Mock.Emb Mock.embed Mock.uuid
    (fun _ _ => store_down) (fun _ _ => store_down) (fun _ _ => store_down)
    (fun _ _ => store_down) (fun _ => store_down) Mock.json_stringify.

(** A store whose client throws the string "not found", not an [Error]. *)
Definition env_store_throws_text : Env Mock.Store Mock.Emb :=
  mkEnv Mock.Store Mock.Emb Mock.embed Mock.uuid
    (fun _ _ s => (inl (NonError "not found"), s))
    (fun _ _ s => (inl (NonError "not found"), s))
    (fun _ _ s => (inl (NonError "not found"), s))
    (fun _ _ s => (inl (NonError "not found"), s))
    (fun _ s => (inl (NonError "not found"), s)) Mock.json_stringify.



(** A store whose scan always announces a next page. *)
Definition scroll_endless (collection : string) (request : ScrollRequest)
    (s : Mock.Store) : (Thrown + ScrollResponse) * Mock.Store :=
  (inr (mkPage [] (Some (IdNum 1))), s).

Definition env_scroll_endless : Env Mock.Store Mock.Emb :=
  mkEnv Mock.Store Mock.Emb Mock.embed Mock.uuid Mock.client_upsert
    Mock.client_search scroll_endless Mock.client_delete
    Mock.client_deleteCollection Mock.json_stringify.

(** A store that serves its scripted pages and then throws. *)
Definition scroll_then_down (collection : string) (request : ScrollRequest)
    (s : Mock.Store) : (Thrown + ScrollResponse) * Mock.Store :=
  match Mock.pages s with
  | [] => (inl down, s)
  | page :: rest =>
      (inr page,
       Mock.mkStore (Mock.collection_exists s) (Mock.stored s) rest
         (Mock.hits s))
  end.

Definition env_scroll_breaks : Env Mock.Store Mock.Emb :=
  mkEnv Mock.Store Mock.Emb Mock.embed Mock.uuid Mock.client_upsert
    Mock.client_search scroll_then_down Mock.client_delete
    Mock.client_deleteCollection Mock.json_stringify.

End MockFaults.

(** Pages of a scan that all announce a next page: the cursor to send next
    and the store reached. *)
Inductive ScrollPrefix {Store Emb : Type} (env : Env Store Emb)
    (collection : string) (f : Filter)
    : option PointId -> Store ->
      list (option PointId * ScrollResponse) ->
      option PointId -> Store -> Prop :=
  | prefix_nil (offset : option PointId) (s : Store) :
      ScrollPrefix env collection f offset s [] offset s
  | prefix_cons (offset offset' : option PointId) (s s1 s' : Store)
      (page : ScrollResponse)
      (rest : list (option PointId * ScrollResponse)) :
      client_scroll env collection
        (mkScroll f QdrantProvider.page_size offset true true) s
        = (inr page, s1) ->
      truthy_cursor (next_page_offset page) = true ->
      ScrollPrefix env collection f (next_page_offset page) s1 rest
        offset' s' ->
      ScrollPrefix env collection f offset s ((offset, page) :: rest)
        offset' s'.

(* ===================================================================== *)
(** * Properties of the default chunker *)
(* ===================================================================== *)

Section ChunkerFacts.

Lemma substring_length (s : string) : forall n m : nat,
  (n + m <= String.length s)%nat ->
  String.length (String.substring n m s) = m.
Proof.
  induction s as [| c s IH]; intros n m H; simpl in *.
  - assert (n = 0%nat) by lia. assert (m = 0%nat) by lia. subst. reflexivity.
  - destruct n as [| n].
    + destruct m as [| m]; [reflexivity |].
      simpl. f_equal. apply IH. lia.
    + apply IH. lia.
Qed.

(** A window cut inside the text, from [i] to [e], holds [e - i] units. *)
Lemma js_substring_length (s : string) (i e : Z) :
  0 <= i -> i <= e -> e <= Js.length s ->
  Js.length (Js.substring s i e) = e - i.
Proof.
  intros Hi Hie He. unfold Js.substring, Js.clamp, Js.length in *.
  rewrite substring_length; lia.
Qed.

Lemma js_length_pos (s : string) : s <> "" -> 0 < Js.length s.
Proof. destruct s; [congruence |]. unfold Js.length. simpl. lia. Qed.

Lemma js_length_zero (s : string) : Js.length s = 0 -> s = "".
Proof. destruct s; [reflexivity |]. unfold Js.length. simpl. lia. Qed.

(** More fuel does not change a result. *)
Lemma simpleChunker_loop_mono (text : string) (cs ov : Z) :
  forall (fuel fuel' : nat) (i : Z) (acc r : list Window),
    (fuel <= fuel')%nat ->
    simpleChunker_loop fuel text cs ov i acc = Some r ->
    simpleChunker_loop fuel' text cs ov i acc = Some r.
Proof.
  induction fuel as [| fuel IH]; intros fuel' i acc r Hle H; [discriminate |].
  destruct fuel' as [| fuel']; [lia |].
  simpl in *.
  destruct (i <? Js.length text); [| exact H].
  destruct (_ =? _); [exact H |].
  eapply IH; [| exact H]. lia.
Qed.

(** The loop, entered at a start [0 <= i] with a positive step, leaves with
    the windows cut at [i], [i + step], [i + 2 step], ..., all of them
    started inside the text. *)
Lemma simpleChunker_loop_total (text : string) (cs ov : Z) :
  ov < cs ->
  forall (fuel : nat) (i : Z) (acc : list Window),
    0 <= i ->
    (Z.to_nat (Js.length text - i) < fuel)%nat ->
    exists ws : list Window,
      simpleChunker_loop fuel text cs ov i acc = Some (acc ++ ws)
      /\ (i < Js.length text -> ws <> [])
      /\ (forall (k : nat) (w : Window), ws !! k = Some w ->
            win_start w = i + Z.of_nat k * (cs - ov)
            /\ win_start w < Js.length text
            /\ win_text w =
               Js.substring text (win_start w)
                 (Z.min (win_start w + cs) (Js.length text))).
Proof.
  intros Hstep. induction fuel as [| fuel IH]; intros i acc Hi Hfuel; [lia |].
  simpl. destruct (Z.ltb_spec i (Js.length text)) as [Hlt | Hge].
  - set (w := mkWindow i _).
    destruct (Z.eqb_spec (Z.min (i + cs) (Js.length text)) (Js.length text))
      as [Hend | Hend].
    + exists [w]. split; [reflexivity |]. split; [discriminate |].
      intros [| k] w' Hk; simpl in Hk; [| discriminate].
      injection Hk as <-. simpl. repeat split; lia.
    + destruct (IH (i + (cs - ov)) (acc ++ [w])) as (ws & Hrun & _ & Hws);
        [lia | lia |].
      exists (w :: ws). split.
      { rewrite Hrun, <- app_assoc. reflexivity. }
      split; [discriminate |].
      intros [| k] w' Hk; simpl in Hk.
      * injection Hk as <-. simpl. repeat split; lia.
      * destruct (Hws k w' Hk) as (Hs & Hin & Ht).
        repeat split; [lia | exact Hin | exact Ht].
  - exists []. split; [by rewrite app_nil_r |].
    split; [lia |]. intros k w' Hk. discriminate.
Qed.

(** With the default parameters the chunker always returns, with the fuel
    [addDocument] gives it, and never returns zero chunks. *)
Lemma simpleChunker_default_total (content : string) :
  exists chunks : list string,
    simpleChunker (chunker_fuel content) content default_chunkSize
      default_overlap = Some chunks
    /\ chunks <> [].
Proof.
  unfold simpleChunker, simpleChunker_windows.
  destruct (Z.leb_spec (Js.length content) default_chunkSize) as [Hle | Hgt].
  - exists [content]. split; [reflexivity | discriminate].
  - destruct (simpleChunker_loop_total content default_chunkSize
                default_overlap ltac:(reflexivity) (chunker_fuel content) 0 [])
      as (ws & Hws & Hnil & _).
    + lia.
    + unfold chunker_fuel, Js.length. lia.
    + rewrite Hws. exists (map win_text ws). split; [reflexivity |].
      assert (Hws_ne : ws <> []).
      { apply Hnil. unfold default_chunkSize in Hgt. lia. }
      destruct ws; [congruence | discriminate].
Qed.

End ChunkerFacts.

(** C7. For every non-empty text and every [chunkOverlap < chunkSize], the
    default chunker terminates (any fuel from [chunker_fuel text] on gives
    the same result), produces at least one chunk, and cuts its windows at
    the starts [0], [step], [2 step], ... with [step = chunkSize -
    chunkOverlap]: each start is the previous one plus [step], and the
    starts are strictly increasing. *)
Theorem simpleChunker_terminates_starts_increase
    (text : string) (chunkSize chunkOverlap : Z) :
  text <> "" ->
  chunkOverlap < chunkSize ->
  exists ws : list Window,
    (forall fuel : nat, (chunker_fuel text <= fuel)%nat ->
       simpleChunker_windows fuel text chunkSize chunkOverlap = Some ws
       /\ simpleChunker fuel text chunkSize chunkOverlap
          = Some (map win_text ws))
    /\ (0 < length ws)%nat
    /\ (forall (k : nat) (a b : Window),
          ws !! k = Some a -> ws !! S k = Some b ->
          win_start b = win_start a + (chunkSize - chunkOverlap))
    /\ (forall (j k : nat) (a b : Window),
          (j < k)%nat -> ws !! j = Some a -> ws !! k = Some b ->
          win_start a < win_start b).
Proof.
  intros Hne Hstep.
  assert (Hrun : exists ws : list Window,
    simpleChunker_windows (chunker_fuel text) text chunkSize chunkOverlap
      = Some ws
    /\ ws <> []
    /\ forall (k : nat) (w : Window), ws !! k = Some w ->
         win_start w = Z.of_nat k * (chunkSize - chunkOverlap)).
  { unfold simpleChunker_windows.
    destruct (Js.length text <=? chunkSize).
    - exists [mkWindow 0 text]. split; [reflexivity |].
      split; [discriminate |].
      intros [| k] w Hk; simpl in Hk; [| discriminate].
      injection Hk as <-. simpl. lia.
    - destruct (simpleChunker_loop_total text chunkSize chunkOverlap Hstep
                  (chunker_fuel text) 0 [])
        as (ws & Hws & Hnil & Hstarts).
      + lia.
      + unfold chunker_fuel, Js.length. lia.
      + exists ws. split; [exact Hws |].
        split; [apply Hnil, js_length_pos, Hne |].
        intros k w Hk. destruct (Hstarts k w Hk) as (Hs & _). lia. }
  destruct Hrun as (ws & Hws & Hnil & Hstarts).
  exists ws. repeat split.
  - unfold simpleChunker_windows in *.
    destruct (Js.length text <=? chunkSize); [exact Hws |].
    eapply simpleChunker_loop_mono; eassumption.
  - unfold simpleChunker.
    replace (simpleChunker_windows fuel text chunkSize chunkOverlap)
      with (Some ws); [reflexivity |].
    symmetry. unfold simpleChunker_windows in *.
    destruct (Js.length text <=? chunkSize); [exact Hws |].
    eapply simpleChunker_loop_mono; eassumption.
  - destruct ws; [congruence | simpl; lia].
  - intros k a b Ha Hb.
    rewrite (Hstarts _ _ Ha), (Hstarts _ _ Hb). lia.
  - intros j k a b Hjk Ha Hb.
    rewrite (Hstarts _ _ Ha), (Hstarts _ _ Hb). nia.
Qed.

Lemma simpleChunker_terminates_starts_increase_witness :
  exists ws : list Window,
    (forall fuel : nat, (chunker_fuel "abcdefghij" <= fuel)%nat ->
       simpleChunker_windows fuel "abcdefghij" 4 1 = Some ws
       /\ simpleChunker fuel "abcdefghij" 4 1 = Some (map win_text ws))
    /\ (0 < length ws)%nat
    /\ (forall (k : nat) (a b : Window),
          ws !! k = Some a -> ws !! S k = Some b ->
          win_start b = win_start a + (4 - 1))
    /\ (forall (j k : nat) (a b : Window),
          (j < k)%nat -> ws !! j = Some a -> ws !! k = Some b ->
          win_start a < win_start b).
Proof.
  apply (simpleChunker_terminates_starts_increase "abcdefghij" 4 1);
    [discriminate | lia].
Defined.

(** The run of the witness above: three windows, cut at 0, 3 and 6. *)
Example simpleChunker_run :
  simpleChunker_windows 11 "abcdefghij" 4 1
  = Some [mkWindow 0 "abcd"; mkWindow 3 "defg"; mkWindow 6 "ghij"].
Proof. reflexivity. Qed.

(** With [overlap >= chunkSize] the loop does not advance: no fuel is
    enough for a text longer than a window. *)
Example simpleChunker_stuck :
  simpleChunker 1000 "abcdefghij" 4 4 = None.
Proof. vm_compute. reflexivity. Qed.

(** C8. A text of at most [chunkSize] units comes back as exactly one
    chunk, which is the text itself. *)
Theorem simpleChunker_short_text
    (fuel : nat) (text : string) (chunkSize overlap : Z) :
  Js.length text <= chunkSize ->
  simpleChunker fuel text chunkSize overlap = Some [text].
Proof.
  intros Hle. unfold simpleChunker, simpleChunker_windows.
  destruct (Z.leb_spec (Js.length text) chunkSize); [reflexivity | lia].
Qed.

Lemma simpleChunker_short_text_witness :
  simpleChunker 0 "UBC is a public research university."
    default_chunkSize default_overlap
  = Some ["UBC is a public research university."].
Proof.
  apply (simpleChunker_short_text 0 "UBC is a public research university."
           default_chunkSize default_overlap).
  vm_compute. discriminate.
Defined.

(** C9, as the claim states it, fails: the empty text is returned as one
    chunk, and that chunk is the empty string. *)
Lemma simpleChunker_empty_text_chunk :
  simpleChunker (chunker_fuel "") "" default_chunkSize default_overlap
  = Some [""]
  /\ ~ Forall (fun chunk => chunk <> "") [""].
Proof.
  split; [reflexivity |].
  intros H. inversion H as [| ? ? Hhead _]. apply Hhead. reflexivity.
Qed.

(** Non-empty chunks, for any positive window size and positive step. *)
Lemma simpleChunker_windows_nonempty
    (text : string) (chunkSize overlap : Z) :
  text <> "" ->
  0 < chunkSize ->
  overlap < chunkSize ->
  exists ws : list Window,
    (forall fuel : nat, (chunker_fuel text <= fuel)%nat ->
       simpleChunker_windows fuel text chunkSize overlap = Some ws)
    /\ Forall (fun w => win_text w <> "") ws.
Proof.
  intros Hne Hcs Hstep.
  assert (Hrun : exists ws : list Window,
    simpleChunker_windows (chunker_fuel text) text chunkSize overlap = Some ws
    /\ Forall (fun w => win_text w <> "") ws).
  { unfold simpleChunker_windows.
    destruct (Js.length text <=? chunkSize).
    - exists [mkWindow 0 text]. split; [reflexivity |].
      constructor; [exact Hne | constructor].
    - destruct (simpleChunker_loop_total text chunkSize overlap Hstep
                  (chunker_fuel text) 0 [])
        as (ws & Hws & _ & Hwin).
      + lia.
      + unfold chunker_fuel, Js.length. lia.
      + exists ws. split; [exact Hws |].
        apply Forall_lookup_2. intros k w Hk.
        destruct (Hwin k w Hk) as (Hs & Hin & Ht).
        assert (Hpos : 0 <= win_start w) by nia.
        intros Hempty.
        assert (Hlen : Js.length (win_text w) = 0)
          by (rewrite Hempty; reflexivity).
        rewrite Ht, js_substring_length in Hlen; lia. }
  destruct Hrun as (ws & Hws & Hall).
  exists ws. split; [| exact Hall].
  intros fuel Hfuel. unfold simpleChunker_windows in *.
  destruct (Js.length text <=? chunkSize); [exact Hws |].
  eapply simpleChunker_loop_mono; eassumption.
Qed.

(** C9, amended. For every non-empty input text, the default chunker
    (windows of 300 with an overlap of 50) returns, and every chunk of the
    sequence it returns is a non-empty string. *)
Theorem simpleChunker_chunks_nonempty (text : string) :
  text <> "" ->
  exists chunks : list string,
    (forall fuel : nat, (chunker_fuel text <= fuel)%nat ->
       simpleChunker fuel text default_chunkSize default_overlap
       = Some chunks)
    /\ Forall (fun chunk => chunk <> "") chunks.
Proof.
  intros Hne.
  destruct (simpleChunker_windows_nonempty text default_chunkSize
              default_overlap Hne ltac:(reflexivity) ltac:(reflexivity))
    as (ws & Hws & Hall).
  exists (map win_text ws). split.
  - intros fuel Hfuel. unfold simpleChunker. rewrite (Hws fuel Hfuel).
    reflexivity.
  - apply Forall_map. exact Hall.
Qed.

Lemma simpleChunker_chunks_nonempty_witness :
  Mock.long_text <> ""
  /\ exists chunks : list string,
       (forall fuel : nat, (chunker_fuel Mock.long_text <= fuel)%nat ->
          simpleChunker fuel Mock.long_text default_chunkSize default_overlap
          = Some chunks)
       /\ Forall (fun chunk => chunk <> "") chunks.
Proof.
  assert (H : Mock.long_text <> "") by (vm_compute; discriminate).
  split; [exact H |].
  apply (simpleChunker_chunks_nonempty Mock.long_text H).
Defined.

(** The text of the witness, 700 units long, is cut at 0, 250 and 500. *)
Example simpleChunker_long_text :
  option_map (map (fun w => (win_start w, Js.length (win_text w))))
    (simpleChunker_windows (chunker_fuel Mock.long_text) Mock.long_text
       default_chunkSize default_overlap)
  = Some [(0, 300); (250, 300); (500, 200)].
Proof. vm_compute. reflexivity. Qed.

(* ===================================================================== *)
(** * Properties of the provider *)
(* ===================================================================== *)

Section MonadFacts.

Context {Store Emb : Type}.

#[local] Abbreviation M := (@M Store Emb).

Lemma bind_done {A B} (m : M A) (k : A -> M B) (w w' : World Store Emb) (a : A) :
  m w = (Done a, w') -> (m ≫= k) w = k a w'.
Proof. intros H. unfold mbind, M_bind, bind. rewrite H. reflexivity. Qed.

Lemma bind_raised {A B} (m : M A) (k : A -> M B) (w w' : World Store Emb)
    (e : Thrown) :
  m w = (Raised e, w') -> (m ≫= k) w = (Raised e, w').
Proof. intros H. unfold mbind, M_bind, bind. rewrite H. reflexivity. Qed.

Lemma bind_stalled {A B} (m : M A) (k : A -> M B) (w w' : World Store Emb) :
  m w = (Stalled, w') -> (m ≫= k) w = (Stalled, w').
Proof. intros H. unfold mbind, M_bind, bind. rewrite H. reflexivity. Qed.

Lemma try_catch_done {A} (m : M A) (h : Thrown -> M A)
    (w w' : World Store Emb) (a : A) :
  m w = (Done a, w') -> try_catch m h w = (Done a, w').
Proof. intros H. unfold try_catch. rewrite H. reflexivity. Qed.

Lemma try_catch_raised {A} (m : M A) (h : Thrown -> M A)
    (w w' : World Store Emb) (e : Thrown) :
  m w = (Raised e, w') -> try_catch m h w = h e w'.
Proof. intros H. unfold try_catch. rewrite H. reflexivity. Qed.

Lemma call_store_ok {A} (c : Call) (f : Store -> (Thrown + A) * Store)
    (w : World Store Emb) (a : A) (s' : Store) :
  f (store w) = (inr a, s') ->
  call_store c f w
  = (Done a, mkWorld s' (embedder w) (uuid_count w) (calls w ++ [c])).
Proof. intros H. unfold call_store. rewrite H. reflexivity. Qed.

Lemma call_store_throws {A} (c : Call) (f : Store -> (Thrown + A) * Store)
    (w : World Store Emb) (e : Thrown) (s' : Store) :
  f (store w) = (inl e, s') ->
  call_store c f w
  = (Raised e, mkWorld s' (embedder w) (uuid_count w) (calls w ++ [c])).
Proof. intros H. unfold call_store. rewrite H. reflexivity. Qed.

End MonadFacts.

Section IngestionFacts.

Context {Store Emb : Type}.
Variable env : Env Store Emb.
Variable config : QdrantConfig.

Lemma present_Some (embeddings : list (option Vector)) (i : nat) :
  present embeddings i = true <->
  exists v : Vector, embeddings !! i = Some (Some v).
Proof.
  unfold present. destruct (embeddings !! i) as [[v |] |]; split;
    try discriminate; eauto; intros [v' H]; discriminate.
Qed.

(** The loop of step 3 builds [built_points] and returns their ids. *)
Lemma addDocument_loop_run (embeddings : list (option Vector))
    (metadata : gmap string JsVal) :
  forall (rest : list string) (i : nat) (pts : list PointStruct)
         (ids : list string) (w : World Store Emb),
    QdrantProvider.addDocument_loop env embeddings metadata i rest pts ids w
    = (Done (pts ++ built_points (uuid env) embeddings metadata i
                      (uuid_count w) rest,
             ids ++ map point_id
                      (built_points (uuid env) embeddings metadata i
                         (uuid_count w) rest)),
       mkWorld (store w) (embedder w)
         (uuid_count w
          + length (built_points (uuid env) embeddings metadata i
                      (uuid_count w) rest))
         (calls w)).
Proof.
  induction rest as [| chunk rest IH]; intros i pts ids w; simpl.
  - rewrite !app_nil_r, Nat.add_0_r. destruct w; reflexivity.
  - destruct (embeddings !! i) as [[v |] |]; simpl.
    + unfold mbind, M_bind, bind, uuidv4. rewrite IH. simpl.
      rewrite <- !app_assoc. simpl. do 2 f_equal. lia.
    + apply IH.
    + apply IH.
Qed.

Lemma filter_seq_bounds (f : nat -> bool) (i len j idx : nat) :
  List.filter f (seq i len) !! j = Some idx ->
  (i <= idx < i + len)%nat /\ f idx = true.
Proof.
  intros H. apply list_elem_of_lookup_2, list_elem_of_In in H.
  apply filter_In in H as [Hin Hf]. apply in_seq in Hin. split; [lia | exact Hf].
Qed.

(** What [built_points] holds at each position. *)
Lemma built_points_spec (uuid : nat -> string)
    (embeddings : list (option Vector)) (metadata : gmap string JsVal) :
  forall (rest : list string) (i n : nat),
    let B := built_points uuid embeddings metadata i n rest in
    let K := List.filter (present embeddings) (seq i (length rest)) in
    length B = length K
    /\ map point_id B = map uuid (seq n (length K))
    /\ (forall (j idx : nat), K !! j = Some idx ->
          exists (chunk : string) (v : Vector),
            rest !! (idx - i)%nat = Some chunk
            /\ embeddings !! idx = Some (Some v)
            /\ B !! j
               = Some (mkPoint (uuid (n + j)%nat) v
                         (<["chunkIndex" := JNum (Z.of_nat idx)]>
                            (<["content" := JStr chunk]> metadata)))).
Proof.
  induction rest as [| chunk rest IH]; intros i n; cbv zeta in *; simpl.
  - repeat split; intros j idx H; discriminate.
  - destruct (IH (S i) n) as (Hlen0 & Hids0 & Hat0).
    destruct (IH (S i) (S n)) as (Hlen1 & Hids1 & Hat1).
    assert (Hp : present embeddings i
                 = match embeddings !! i with
                   | Some (Some _) => true
                   | _ => false
                   end) by reflexivity.
    destruct (embeddings !! i) as [[v |] |] eqn:Hv; rewrite Hp; simpl.
    + split; [congruence |]. split; [congruence |].
      intros [| j] idx Hk; simpl in Hk.
      * injection Hk as <-.
        exists chunk, v. rewrite ?Nat.sub_diag, ?Nat.add_0_r. simpl.
        repeat split; first [exact Hv | reflexivity].
      * destruct (filter_seq_bounds _ _ _ _ _ Hk) as [Hb _].
        destruct (Hat1 j idx Hk) as (c & v' & Hc & Hv' & HB).
        exists c, v'. replace (idx - i)%nat with (S (idx - S i)) by lia.
        simpl. repeat split; [exact Hc | exact Hv' |].
        rewrite HB. do 3 f_equal. lia.
    + split; [exact Hlen0 |]. split; [exact Hids0 |].
      intros j idx Hk.
      destruct (filter_seq_bounds _ _ _ _ _ Hk) as [Hb _].
      destruct (Hat0 j idx Hk) as (c & v & Hc & Hv' & HB).
      exists c, v. replace (idx - i)%nat with (S (idx - S i)) by lia.
      simpl. repeat split; assumption.
    + split; [exact Hlen0 |]. split; [exact Hids0 |].
      intros j idx Hk.
      destruct (filter_seq_bounds _ _ _ _ _ Hk) as [Hb _].
      destruct (Hat0 j idx Hk) as (c & v & Hc & Hv' & HB).
      exists c, v. replace (idx - i)%nat with (S (idx - S i)) by lia.
      simpl. repeat split; assumption.
Qed.

Lemma embeddings_embed_ok (texts : list string) (w : World Store Emb)
    (embeddings : list (option Vector)) (e' : Emb) :
  embed env texts (embedder w) = (inr embeddings, e') ->
  embeddings_embed env texts w
  = (Done embeddings,
     mkWorld (store w) e' (uuid_count w) (calls w ++ [CallEmbed texts])).
Proof. intros H. unfold embeddings_embed. rewrite H. reflexivity. Qed.

(** [addDocument] is [addDocument_chunks] run on the chunks of the content. *)
Lemma addDocument_is_chunks (content : string)
    (metadata : option (gmap string JsVal)) (chunks : list string) :
  simpleChunker (chunker_fuel content) content default_chunkSize
    default_overlap = Some chunks ->
  QdrantProvider.addDocument env config content metadata
  = QdrantProvider.addDocument_chunks env config chunks (default ∅ metadata).
Proof. intros H. unfold QdrantProvider.addDocument. rewrite H. reflexivity. Qed.

(** [addDocument] never stalls, and the chunk list it works on is never
    empty: the test [chunks.length === 0] fails on every content. *)
Lemma addDocument_runs_on_chunks (content : string)
    (metadata : option (gmap string JsVal)) :
  exists chunks : list string,
    chunks <> []
    /\ QdrantProvider.addDocument env config content metadata
       = QdrantProvider.addDocument_chunks env config chunks
           (default ∅ metadata).
Proof.
  destruct (simpleChunker_default_total content) as (chunks & Hrun & Hne).
  exists chunks. split; [exact Hne |].
  apply addDocument_is_chunks. exact Hrun.
Qed.

(** The run of [addDocument_chunks] once the embeddings came back. *)
Lemma addDocument_chunks_run (chunks : list string)
    (metadata : gmap string JsVal) (w : World Store Emb)
    (embeddings : list (option Vector)) (e' : Emb) :
  chunks <> [] ->
  embed env chunks (embedder w) = (inr embeddings, e') ->
  let B := built_points (uuid env) embeddings metadata 0 (uuid_count w)
             chunks in
  let w1 := mkWorld (store w) e' (uuid_count w + length B)
              (calls w ++ [CallEmbed chunks]) in
  QdrantProvider.addDocument_chunks env config chunks metadata w
  = if (length B =? 0)%nat then (Done [], w1)
    else
      try_catch
        (upsert env (collectionName config) (mkUpsert true B) ;;
         ret (map point_id B))
        (QdrantProvider.upsert_failed env) w1.
Proof.
  intros Hne Hembed B w1. unfold QdrantProvider.addDocument_chunks.
  destruct chunks as [| c chunks]; [congruence |].
  change (length (c :: chunks) =? 0)%nat with false. cbv iota.
  rewrite (bind_done _ _ _ _ _ (embeddings_embed_ok _ _ _ _ Hembed)).
  rewrite (bind_done _ _ _ _ _
             (addDocument_loop_run embeddings metadata (c :: chunks) 0 [] [] _)).
  cbn [store embedder uuid_count calls app]. fold B. fold w1.
  destruct (length B =? 0)%nat; reflexivity.
Qed.

Lemma filter_seq_increasing (f : nat -> bool) :
  forall (len i j k a b : nat),
    (j < k)%nat ->
    List.filter f (seq i len) !! j = Some a ->
    List.filter f (seq i len) !! k = Some b ->
    (a < b)%nat.
Proof.
  induction len as [| len IH]; intros i j k a b Hjk Ha Hb; [discriminate |].
  simpl in Ha, Hb. destruct (f i).
  - destruct k as [| k]; [lia |]. simpl in Hb.
    destruct j as [| j]; simpl in Ha.
    + injection Ha as <-.
      destruct (filter_seq_bounds _ _ _ _ _ Hb) as [Hbound _]. lia.
    + eapply (IH (S i) j k); [lia | eassumption | eassumption].
  - eapply IH; eassumption.
Qed.

Lemma filter_seq_nil (f : nat -> bool) (n : nat) :
  (forall i : nat, (i < n)%nat -> f i = false) ->
  List.filter f (seq 0 n) = [].
Proof.
  intros H. destruct (List.filter f (seq 0 n)) as [| x l] eqn:E; [reflexivity |].
  assert (Hin : In x (List.filter f (seq 0 n))) by (rewrite E; left; reflexivity).
  apply filter_In in Hin as [Hin Hf]. apply in_seq in Hin.
  rewrite H in Hf; [discriminate | lia].
Qed.

Lemma store_calls_embed (trace : list Call) (texts : list string) :
  store_calls (trace ++ [CallEmbed texts]) = store_calls trace.
Proof. unfold store_calls. rewrite List.filter_app. simpl. apply app_nil_r. Qed.

(** C1. Whatever the chunks and the embeddings returned for them,
    [addDocument] keeps exactly the chunks whose embedding is present
    ([kept], in chunk order) and skips the others; it draws one fresh id
    per kept chunk, in that order; the point of the [j]-th kept chunk, of
    index [i], carries that id, the embedding of the chunk, and the payload
    [{ ...metadata, content: chunks[i], chunkIndex: i }]; these points are
    what is upserted, and their ids are what is returned. *)
Theorem addDocument_one_id_per_embedded_chunk
    (chunks : list string) (metadata : gmap string JsVal)
    (w : World Store Emb) (embeddings : list (option Vector)) (e' : Emb) :
  chunks <> [] ->
  embed env chunks (embedder w) = (inr embeddings, e') ->
  let kept := kept_indices embeddings (length chunks) in
  let ids := map (uuid env) (seq (uuid_count w) (length kept)) in
  exists points : list PointStruct,
    (forall i : nat,
       In i kept <->
       (i < length chunks)%nat
       /\ exists v : Vector, embeddings !! i = Some (Some v))
    /\ (forall (j k a b : nat),
          (j < k)%nat -> kept !! j = Some a -> kept !! k = Some b ->
          (a < b)%nat)
    /\ length ids = length kept
    /\ map point_id points = ids
    /\ (forall (j i : nat), kept !! j = Some i ->
          exists (chunk : string) (v : Vector),
            chunks !! i = Some chunk
            /\ embeddings !! i = Some (Some v)
            /\ points !! j
               = Some (mkPoint (uuid env (uuid_count w + j)%nat) v
                         (<["chunkIndex" := JNum (Z.of_nat i)]>
                            (<["content" := JStr chunk]> metadata))))
    /\ (kept = [] ->
        QdrantProvider.addDocument_chunks env config chunks metadata w
        = (Done [],
           mkWorld (store w) e' (uuid_count w)
             (calls w ++ [CallEmbed chunks])))
    /\ (forall s' : Store,
          kept <> [] ->
          client_upsert env (collectionName config) (mkUpsert true points)
            (store w) = (inr tt, s') ->
          QdrantProvider.addDocument_chunks env config chunks metadata w
          = (Done ids,
             mkWorld s' e' (uuid_count w + length kept)
               (calls w ++
                [CallEmbed chunks;
                 CallUpsert (collectionName config)
                   (mkUpsert true points)]))).
Proof.
  intros Hne Hembed kept ids.
  pose proof (addDocument_chunks_run chunks metadata w embeddings e'
                Hne Hembed) as Hrun.
  cbv zeta in Hrun.
  destruct (built_points_spec (uuid env) embeddings metadata chunks 0
              (uuid_count w)) as (Hlen & Hids & Hat).
  set (B := built_points (uuid env) embeddings metadata 0 (uuid_count w)
              chunks) in *.
  fold (kept_indices embeddings (length chunks)) in Hlen, Hids, Hat.
  fold kept in Hlen, Hids, Hat.
  exists B.
  split; [| split; [| split; [| split; [| split; [| split]]]]].
  - intros i. unfold kept, kept_indices. rewrite filter_In, in_seq, present_Some.
    split; intros [H1 H2]; (split; [lia | exact H2]).
  - intros j k a b. apply filter_seq_increasing.
  - unfold ids. rewrite length_map, length_seq. reflexivity.
  - exact Hids.
  - intros j i Hk. destruct (Hat j i Hk) as (chunk & v & Hc & Hv & HB).
    exists chunk, v. rewrite Nat.sub_0_r in Hc. repeat split; assumption.
  - intros Hnil. rewrite Hrun, Hlen, Hnil. simpl.
    rewrite Nat.add_0_r. reflexivity.
  - intros s' Hkept Hup. rewrite Hrun, Hlen.
    destruct kept as [| k0 kept'] eqn:Ek; [congruence |].
    change (length (k0 :: kept') =? 0)%nat with false. cbv iota.
    erewrite try_catch_done; [reflexivity |].
    erewrite bind_done.
    2: { unfold upsert. apply call_store_ok. exact Hup. }
    unfold mret, M_ret, ret. cbn [store embedder uuid_count calls].
    rewrite Hids, <- app_assoc. reflexivity.
Qed.

(** C3. When there is nothing to upsert, [addDocument] returns the empty
    list of ids and the vector store is not called: with zero chunks no
    collaborator is called at all, and when every embedding is absent the
    only call is the one to the embeddings service. Neither is an error.
    [addDocument] itself is [addDocument_chunks] on the chunks of its
    content. *)
Theorem addDocument_nothing_to_upsert_no_store_call :
  (forall (metadata : gmap string JsVal) (w : World Store Emb),
     QdrantProvider.addDocument_chunks env config [] metadata w
     = (Done [], w))
  /\ (forall (chunks : list string) (metadata : gmap string JsVal)
        (w : World Store Emb) (embeddings : list (option Vector)) (e' : Emb),
        chunks <> [] ->
        embed env chunks (embedder w) = (inr embeddings, e') ->
        (forall (i : nat) (v : Vector),
           (i < length chunks)%nat -> embeddings !! i <> Some (Some v)) ->
        exists w' : World Store Emb,
          QdrantProvider.addDocument_chunks env config chunks metadata w
          = (Done [], w')
          /\ store w' = store w
          /\ calls w' = calls w ++ [CallEmbed chunks]
          /\ store_calls (calls w') = store_calls (calls w))
  /\ (forall (content : string) (metadata : option (gmap string JsVal)),
        exists chunks : list string,
          QdrantProvider.addDocument env config content metadata
          = QdrantProvider.addDocument_chunks env config chunks
              (default ∅ metadata)).
Proof.
  split; [reflexivity |].
  split; [| intros content metadata;
            destruct (addDocument_runs_on_chunks content metadata)
              as (chunks & _ & H); exists chunks; exact H].
  intros chunks metadata w embeddings e' Hne Hembed Habsent.
  pose proof (addDocument_chunks_run chunks metadata w embeddings e'
                Hne Hembed) as Hrun.
  cbv zeta in Hrun.
  destruct (built_points_spec (uuid env) embeddings metadata chunks 0
              (uuid_count w)) as (Hlen & _ & _).
  rewrite filter_seq_nil in Hlen.
  - rewrite Hlen in Hrun. simpl in Hrun.
    eexists. split; [exact Hrun |]. simpl.
    split; [reflexivity |]. split; [reflexivity |]. apply store_calls_embed.
  - intros i Hi. destruct (present embeddings i) eqn:Hp; [| reflexivity].
    apply present_Some in Hp as [v Hv]. destruct (Habsent i v Hi Hv).
Qed.

End IngestionFacts.

Section RetrievalFacts.

Context {Store Emb : Type}.
Variable env : Env Store Emb.
Variable config : QdrantConfig.

(** [Object.keys(metadata).length > 0] holds unless the object is empty. *)
Lemma has_keys_iff (m : gmap string JsVal) :
  (0 <? length (map_to_list m))%nat = false <-> m = ∅.
Proof.
  rewrite <- map_to_list_empty_iff.
  destruct (map_to_list m); cbn; split; intros H;
    first [reflexivity | discriminate].
Qed.

(** What the mapping function makes of one hit. *)
Lemma toRetrievedChunk_spec (hit : ScoredPoint) :
  let c := QdrantProvider.toRetrievedChunk hit in
  let field := hit_payload hit ≫= (fun p => p !! "content") in
  let others := delete "content" (default ∅ (hit_payload hit)) in
  chunk_score c = hit_score hit
  /\ (field = None -> chunk_content c = JStr "")
  /\ (field = Some JNull -> chunk_content c = JStr "")
  /\ (forall v : JsVal, field = Some v -> v <> JNull -> chunk_content c = v)
  /\ (others = ∅ -> chunk_metadata c = None)
  /\ (others <> ∅ -> chunk_metadata c = Some others).
Proof.
  cbv zeta. unfold QdrantProvider.toRetrievedChunk. simpl.
  split; [reflexivity |].
  split; [intros ->; reflexivity |].
  split; [intros ->; reflexivity |].
  split; [intros v -> Hv; destruct v; first [reflexivity | congruence] |].
  split.
  - intros Hempty. apply has_keys_iff in Hempty. rewrite Hempty. reflexivity.
  - intros Hne.
    destruct (0 <? length (map_to_list (delete "content"
                (default ∅ (hit_payload hit)))))%nat eqn:E; [reflexivity |].
    apply has_keys_iff in E. contradiction.
Qed.

(** C5. When the query is embedded and the search answers, every hit is
    mapped, in order, to a chunk with the score of the hit; its content is
    the ['content'] field of the payload, or the empty string when the
    payload or the field is absent (a field holding [null] counts as
    absent); its metadata is the payload without the ['content'] field, or
    [undefined] when no other field is left. No payload makes the call
    fail. *)
Theorem retrieveContext_maps_each_hit
    (queryText : string) (options : RetrievalOptions) (w : World Store Emb)
    (embeddings : list (option Vector)) (e' : Emb) (queryVector : Vector)
    (hits : list ScoredPoint) (s' : Store) :
  embed env [queryText] (embedder w) = (inr embeddings, e') ->
  head embeddings = Some (Some queryVector) ->
  client_search env (collectionName config)
    (mkSearch queryVector (default 5 (opt_limit options))
       (opt_scoreThreshold options) None true false) (store w)
  = (inr hits, s') ->
  exists (chunks : list RetrievedChunk) (w' : World Store Emb),
    QdrantProvider.retrieveContext env config queryText options w
    = (Done chunks, w')
    /\ length chunks = length hits
    /\ forall (k : nat) (hit : ScoredPoint), hits !! k = Some hit ->
         exists c : RetrievedChunk,
           chunks !! k = Some c
           /\ chunk_score c = hit_score hit
           /\ (hit_payload hit ≫= (fun p => p !! "content") = None ->
               chunk_content c = JStr "")
           /\ (hit_payload hit ≫= (fun p => p !! "content") = Some JNull ->
               chunk_content c = JStr "")
           /\ (forall v : JsVal,
                 hit_payload hit ≫= (fun p => p !! "content") = Some v ->
                 v <> JNull -> chunk_content c = v)
           /\ (delete "content" (default ∅ (hit_payload hit)) = ∅ ->
               chunk_metadata c = None)
           /\ (delete "content" (default ∅ (hit_payload hit)) <> ∅ ->
               chunk_metadata c
               = Some (delete "content" (default ∅ (hit_payload hit)))).
Proof.
  intros Hembed Hhead Hsearch.
  exists (map QdrantProvider.toRetrievedChunk hits). eexists.
  split; [| split].
  - unfold QdrantProvider.retrieveContext.
    rewrite (bind_done _ _ _ _ _ (embeddings_embed_ok env _ _ _ _ Hembed)).
    rewrite Hhead.
    erewrite try_catch_done; [reflexivity |].
    erewrite bind_done; [reflexivity |].
    unfold search. apply call_store_ok. exact Hsearch.
  - apply length_map.
  - intros k hit Hk. exists (QdrantProvider.toRetrievedChunk hit). split.
    + rewrite list_lookup_fmap, Hk. reflexivity.
    + apply (toRetrievedChunk_spec hit).
Qed.

(** C10. Two calls of [retrieveContext] that differ only in
    [options.filter] run identically from the same world: same outcome,
    same final world, same trace, on the facade and on the provider. The
    only calls a run adds are the embedding of the query and a search
    whose request carries no filter. *)
Theorem retrieveContext_ignores_filter
    (this : RAGModule.t) (queryText : string) (limit : option Z)
    (scoreThreshold : option float)
    (filter1 filter2 : option (gmap string JsVal)) (w : World Store Emb) :
  RAGModule.retrieveContext env this queryText
    (Some (mkOptions limit scoreThreshold filter1)) w
  = RAGModule.retrieveContext env this queryText
      (Some (mkOptions limit scoreThreshold filter2)) w
  /\ QdrantProvider.retrieveContext env config queryText
       (mkOptions limit scoreThreshold filter1) w
     = QdrantProvider.retrieveContext env config queryText
         (mkOptions limit scoreThreshold filter2) w
  /\ forall c : Call,
       In c (calls (snd (QdrantProvider.retrieveContext env config queryText
                           (mkOptions limit scoreThreshold filter1) w))) ->
       In c (calls w)
       \/ c = CallEmbed [queryText]
       \/ exists queryVector : Vector,
            c = CallSearch (collectionName config)
                  (mkSearch queryVector (default 5 limit) scoreThreshold
                     None true false).
Proof.
  split; [reflexivity |]. split; [reflexivity |].
  intros c. unfold QdrantProvider.retrieveContext.
  unfold mbind, M_bind, bind, embeddings_embed.
  destruct (embed env [queryText] (embedder w)) as [[e | embeddings] e'];
    simpl.
  - rewrite in_app_iff. simpl. intuition (subst; eauto).
  - destruct (head embeddings) as [[queryVector |] |]; simpl.
    + unfold try_catch, search, call_store, throw. simpl.
      destruct (client_search env _ _ (store w)) as [[e | hits] s']; simpl;
        rewrite !in_app_iff; simpl; intuition (subst; eauto).
    + unfold throw. simpl. rewrite in_app_iff. simpl. intuition (subst; eauto).
    + unfold throw. simpl. rewrite in_app_iff. simpl. intuition (subst; eauto).
Qed.

End RetrievalFacts.

Section ScanFacts.

Context {Store Emb : Type}.
Variable env : Env Store Emb.
Variable config : QdrantConfig.

(** [if (response.points.length > 0) allPoints.push(...response.points)]
    is an append in both cases. *)
Lemma push_page (allPoints page : list StoredPoint) :
  (if (0 <? length page)%nat then allPoints ++ page else allPoints)
  = allPoints ++ page.
Proof. destruct page; [symmetry; apply app_nil_r | reflexivity]. Qed.

(** The filter becomes one condition per field, and nothing else. *)
Lemma conditions_spec (filter : gmap string JsVal) (key : string) (value : JsVal) :
  filter !! key = Some value <->
  In (mkCondition key value) (QdrantProvider.conditions filter).
Proof.
  unfold QdrantProvider.conditions. rewrite in_map_iff. split.
  - intros H. exists (key, value). split; [reflexivity |].
    apply list_elem_of_In, elem_of_map_to_list. exact H.
  - intros [[k v] [Heq Hin]]. simpl in Heq. injection Heq as -> ->.
    apply list_elem_of_In, elem_of_map_to_list in Hin. exact Hin.
Qed.

(** Along a run of the scan, the loop requests every page of the run,
    appends the points of each, and stops with the run. *)
Lemma scroll_loop_run (filter : gmap string JsVal) :
  forall (offset : option PointId) (s : Store)
         (steps : list (option PointId * ScrollResponse)) (s' : Store),
    ScrollRun env (collectionName config)
      (mkFilter (QdrantProvider.conditions filter)) offset s steps s' ->
    forall (fuel : nat) (allPoints : list StoredPoint) (w : World Store Emb),
      store w = s ->
      (length steps <= fuel)%nat ->
      QdrantProvider.scroll_loop env config fuel filter allPoints offset w
      = (Done (allPoints ++ concat (map (fun st => points (snd st)) steps)),
         mkWorld s' (embedder w) (uuid_count w)
           (calls w ++
            map (fun st => CallScroll (collectionName config)
                             (page_request filter (fst st))) steps)).
Proof.
  intros offset s steps s' Hrun.
  induction Hrun as [offset s s' page Hscroll Hstop
                    | offset s s1 s' page rest Hscroll Hgo Hrun IH];
    intros fuel allPoints w Hs Hfuel;
    (destruct fuel as [| fuel]; [simpl in Hfuel; lia |]); simpl.
  - erewrite bind_done.
    2: { unfold scroll. apply call_store_ok. rewrite Hs. exact Hscroll. }
    rewrite Hstop, push_page, app_nil_r. reflexivity.
  - erewrite bind_done.
    2: { unfold scroll. apply call_store_ok. rewrite Hs. exact Hscroll. }
    rewrite Hgo, push_page.
    rewrite IH; [| reflexivity | simpl in Hfuel; lia].
    cbn [store embedder uuid_count calls].
    rewrite <- !app_assoc. reflexivity.
Qed.

(** C2. The filter is turned into the conjunction [must] of one
    field-equals-value condition per entry. Against any store, the scan
    requests pages of 250 points with payloads and vectors, starting
    without a cursor and then sending the cursor of the previous answer,
    until an answer carries no cursor (the loop tests the cursor for its
    truth value, see [truthy_cursor]); the result is made of the points of
    all these pages, in order, each with its id, payload and vector. When
    the first page is empty and carries no cursor, one request is made and
    the result is empty. *)
Theorem getDocumentsByMetadata_follows_cursor
    (filter : gmap string JsVal) (w : World Store Emb)
    (steps : list (option PointId * ScrollResponse)) (s' : Store) :
  ScrollRun env (collectionName config)
    (mkFilter (QdrantProvider.conditions filter)) None (store w) steps s' ->
  (forall (key : string) (value : JsVal),
     filter !! key = Some value <->
     In (mkCondition key value) (QdrantProvider.conditions filter))
  /\ (forall fuel : nat, (length steps <= fuel)%nat ->
        QdrantProvider.getDocumentsByMetadata env config fuel filter w
        = (Done (map QdrantProvider.toFoundDocument
                   (concat (map (fun st => points (snd st)) steps))),
           mkWorld s' (embedder w) (uuid_count w)
             (calls w ++
              map (fun st =>
                     CallScroll (collectionName config)
                       (mkScroll (mkFilter (QdrantProvider.conditions filter))
                          250 (fst st) true true))
                  steps)))
  /\ (forall point : StoredPoint,
        found_id (QdrantProvider.toFoundDocument point) = stored_id point
        /\ found_metadata (QdrantProvider.toFoundDocument point)
           = stored_payload point
        /\ found_vector (QdrantProvider.toFoundDocument point)
           = stored_vector point)
  /\ (steps = [(None, mkPage [] None)] ->
      forall fuel : nat, (1 <= fuel)%nat ->
        QdrantProvider.getDocumentsByMetadata env config fuel filter w
        = (Done [],
           mkWorld s' (embedder w) (uuid_count w)
             (calls w ++
              [CallScroll (collectionName config)
                 (mkScroll (mkFilter (QdrantProvider.conditions filter))
                    250 None true true)]))).
Proof.
  intros Hrun.
  assert (Hget : forall fuel : nat, (length steps <= fuel)%nat ->
    QdrantProvider.getDocumentsByMetadata env config fuel filter w
    = (Done (map QdrantProvider.toFoundDocument
               (concat (map (fun st => points (snd st)) steps))),
       mkWorld s' (embedder w) (uuid_count w)
         (calls w ++
          map (fun st => CallScroll (collectionName config)
                           (page_request filter (fst st))) steps))).
  { intros fuel Hfuel. unfold QdrantProvider.getDocumentsByMetadata.
    erewrite try_catch_done; [reflexivity |].
    erewrite bind_done; [reflexivity |].
    rewrite (scroll_loop_run filter _ _ _ _ Hrun fuel [] w eq_refl Hfuel).
    reflexivity. }
  split; [apply conditions_spec |].
  split; [exact Hget |].
  split; [intros point; repeat split |].
  intros -> fuel Hfuel. rewrite (Hget fuel Hfuel). reflexivity.
Qed.

End ScanFacts.

Section NotFoundFacts.

Lemma prefix_iff (p s : string) :
  String.prefix p s = true <-> exists post : string, s = String.append p post.
Proof.
  revert s. induction p as [| c p IH]; intros s.
  - split; [intros _; exists s; reflexivity |].
    intros _. destruct s; reflexivity.
  - destruct s as [| d s]; simpl.
    + split; [discriminate | intros [post H]; discriminate].
    + destruct (Ascii.ascii_dec c d) as [-> | Hne].
      * rewrite IH. split; intros [post H]; exists post.
        -- rewrite H. reflexivity.
        -- injection H as H. exact H.
      * split; [discriminate |]. intros [post H]. injection H as H _.
        congruence.
Qed.

Lemma contains_iff (p s : string) :
  contains p s = true <->
  exists pre post : string, s = String.append pre (String.append p post).
Proof.
  induction s as [| d s IH].
  - change (contains p "") with (String.prefix p "" || false).
    rewrite orb_false_r, prefix_iff. split.
    + intros [post H]. exists "", post. exact H.
    + intros (pre & post & H). destruct pre as [| c pre]; [| discriminate].
      exists post. exact H.
  - change (contains p (String d s))
      with (String.prefix p (String d s) || contains p s).
    rewrite orb_true_iff, prefix_iff, IH. split.
    + intros [[post H] | (pre & post & H)].
      * exists "", post. exact H.
      * exists (String d pre), post. simpl. rewrite H. reflexivity.
    + intros (pre & post & H). destruct pre as [| c pre].
      * left. exists post. exact H.
      * right. injection H as _ H. exists pre, post. exact H.
Qed.

Lemma lower_append (a b : string) :
  lower (String.append a b) = String.append (lower a) (lower b).
Proof. induction a as [| c a IH]; simpl; [reflexivity | rewrite IH; reflexivity]. Qed.

(** A message whose lower-case form splits was split the same way. *)
Lemma lower_split (m a b : string) :
  lower m = String.append a b ->
  exists a' b' : string,
    m = String.append a' b' /\ lower a' = a /\ lower b' = b.
Proof.
  revert m. induction a as [| c a IH]; intros m H; simpl in H.
  - exists "", m. repeat split. exact H.
  - destruct m as [| d m]; [discriminate |]. simpl in H.
    injection H as Hc H. destruct (IH m H) as (a' & b' & -> & Ha & Hb).
    exists (String d a'), b'. simpl. rewrite Ha, Hc. repeat split. exact Hb.
Qed.

Lemma test_not_found_iff (message : string) :
  test_not_found message = true <->
  exists pre mid post : string,
    message = String.append pre (String.append mid post)
    /\ lower mid = "not found".
Proof.
  unfold test_not_found. rewrite contains_iff. split.
  - intros (pre & post & H).
    destruct (lower_split _ _ _ H) as (pre' & rest & -> & _ & Hrest).
    destruct (lower_split _ _ _ Hrest) as (mid & post' & -> & Hmid & _).
    exists pre', mid, post'. split; [reflexivity | exact Hmid].
  - intros (pre & mid & post & -> & Hmid).
    exists (lower pre), (lower post).
    rewrite !lower_append, Hmid. reflexivity.
Qed.

End NotFoundFacts.

Section TeardownFacts.

Context {Store Emb : Type}.
Variable env : Env Store Emb.
Variable config : QdrantConfig.

(** The test for "not found" ignores case and accepts the words anywhere
    in the message of an [Error]; other thrown values never pass it. *)
Example is_not_found_examples :
  QdrantProvider.is_not_found
    (ErrorObj "Not found: Collection `docs` doesn't exist!") = true
  /\ QdrantProvider.is_not_found (ErrorObj "Collection NOT FOUND") = true
  /\ QdrantProvider.is_not_found (ErrorObj "connect ECONNREFUSED") = false
  /\ QdrantProvider.is_not_found (NonError "not found") = false.
Proof. repeat split. Qed.

(** The run of [deleteStorage], by the answer of the store. *)
Lemma deleteStorage_run (w : World Store Emb) (answer : Thrown + bool)
    (s' : Store) :
  client_deleteCollection env (collectionName config) (store w)
  = (answer, s') ->
  let w' := mkWorld s' (embedder w) (uuid_count w)
              (calls w ++ [CallDeleteCollection (collectionName config)]) in
  QdrantProvider.deleteStorage env config w
  = match answer with
    | inr _ => (Done tt, w')
    | inl error =>
        if QdrantProvider.is_not_found error then (Done tt, w')
        else (Raised (wrap "Qdrant collection deletion failed: " error), w')
    end.
Proof.
  intros H w'. unfold QdrantProvider.deleteStorage, try_catch, mbind, M_bind,
    bind, deleteCollection, call_store.
  rewrite H. destruct answer as [error | []]; try reflexivity.
  simpl. destruct (QdrantProvider.is_not_found error); reflexivity.
Qed.

(** The test of the [catch] clause passes exactly on an [Error] whose
    message says "not found". *)
Lemma is_not_found_iff (error : Thrown) :
  QdrantProvider.is_not_found error = true
  <-> deleted_or_absent (inl error).
Proof.
  destruct error as [message | rendering]; simpl.
  - apply test_not_found_iff.
  - split; [discriminate | intros []].
Qed.

(** C6. [deleteStorage] asks the store once to delete the collection. It
    completes without raising exactly when the store reports the
    collection as deleted or absent: the deletion returns a result, [true]
    or [false], or throws an [Error] whose message contains "not found" in
    any mix of upper and lower case. On every other thrown value it raises
    an error that wraps it: "Qdrant collection deletion failed: " followed
    by the message of the [Error], or by the rendering of a value that is
    not an [Error], even one that reads "not found". Hence a second call,
    against a store that reports the collection as absent, completes as
    the first did. *)
Theorem deleteStorage_absent_collection_is_success (w : World Store Emb)
    (answer : Thrown + bool) (s' : Store) :
  client_deleteCollection env (collectionName config) (store w)
  = (answer, s') ->
  let w' := mkWorld s' (embedder w) (uuid_count w)
              (calls w ++ [CallDeleteCollection (collectionName config)]) in
  snd (QdrantProvider.deleteStorage env config w) = w'
  /\ (fst (QdrantProvider.deleteStorage env config w) = Done tt
      <-> deleted_or_absent answer)
  /\ (forall message : string,
        answer = inl (ErrorObj message) ->
        ~ says_not_found message ->
        fst (QdrantProvider.deleteStorage env config w)
        = Raised (ErrorObj (String.append
                    "Qdrant collection deletion failed: " message)))
  /\ (forall rendering : string,
        answer = inl (NonError rendering) ->
        fst (QdrantProvider.deleteStorage env config w)
        = Raised (ErrorObj (String.append
                    "Qdrant collection deletion failed: " rendering)))
  /\ (forall (answer2 : Thrown + bool) (s2 : Store),
        deleted_or_absent answer ->
        client_deleteCollection env (collectionName config) s'
        = (answer2, s2) ->
        deleted_or_absent answer2 ->
        QdrantProvider.deleteStorage env config w = (Done tt, w')
        /\ QdrantProvider.deleteStorage env config w'
           = (Done tt,
              mkWorld s2 (embedder w) (uuid_count w)
                (calls w
                 ++ [CallDeleteCollection (collectionName config);
                     CallDeleteCollection (collectionName config)]))).
Proof.
  intros H w'.
  assert (Hok : forall (w0 : World Store Emb) (answer0 : Thrown + bool)
                       (s0 : Store),
    client_deleteCollection env (collectionName config) (store w0)
    = (answer0, s0) ->
    deleted_or_absent answer0 ->
    QdrantProvider.deleteStorage env config w0
    = (Done tt,
       mkWorld s0 (embedder w0) (uuid_count w0)
         (calls w0 ++ [CallDeleteCollection (collectionName config)]))).
  { intros w0 answer0 s0 H0 Habsent.
    rewrite (deleteStorage_run w0 answer0 s0 H0). cbv zeta.
    destruct answer0 as [error |]; [| reflexivity].
    apply is_not_found_iff in Habsent. rewrite Habsent. reflexivity. }
  pose proof (deleteStorage_run w answer s' H) as Hrun.
  cbv zeta in Hrun. fold w' in Hrun.
  split; [| split; [| split; [| split]]].
  - rewrite Hrun. destruct answer as [error |]; [| reflexivity].
    destruct (QdrantProvider.is_not_found error); reflexivity.
  - rewrite Hrun. destruct answer as [error | result].
    + rewrite <- is_not_found_iff.
      destruct (QdrantProvider.is_not_found error); simpl.
      * split; reflexivity.
      * split; discriminate.
    + simpl. split; [intros _; exact I | reflexivity].
  - intros message -> Hnot. rewrite Hrun.
    destruct (QdrantProvider.is_not_found (ErrorObj message)) eqn:E.
    + apply is_not_found_iff in E. contradiction.
    + reflexivity.
  - intros rendering ->. rewrite Hrun. reflexivity.
  - intros answer2 s2 Habsent H2 Habsent2.
    split; [exact (Hok w answer s' H Habsent) |].
    rewrite (Hok w' answer2 s2 H2 Habsent2). unfold w'.
    cbn [store embedder uuid_count calls]. rewrite <- app_assoc.
    reflexivity.
Qed.

End TeardownFacts.

Section FacadeFacts.

Context {Store Emb : Type}.
Variable env : Env Store Emb.

(** C4. The interface of the facade declares [getDocumentsByMetadata],
    but [class RAGModule] defines no such member: calling it on an
    instance, ready or not, throws a [TypeError] and reaches neither the
    provider nor the store. *)
Theorem RAGModule_getDocumentsByMetadata_not_delegated
    (this : RAGModule.t) (filter : gmap string JsVal) (w : World Store Emb) :
  In "getDocumentsByMetadata" RAGModule.RAGModuleInterface_methods
  /\ ~ In "getDocumentsByMetadata" RAGModule.class_methods
  /\ RAGModule.invoke env this (RAGModule.GetDocumentsByMetadata filter) w
     = (Raised (ErrorObj "ragModule.getDocumentsByMetadata is not a function"),
        w).
Proof.
  split; [simpl; tauto |]. split; [| reflexivity].
  simpl. intros H. repeat (destruct H as [H | H]; [discriminate H |]).
  exact H.
Qed.

(** The members the class does define are delegated once the facade is
    ready, for instance [deleteStorage]. *)
Lemma RAGModule_deleteStorage_delegates (this : RAGModule.t)
    (w : World Store Emb) :
  RAGModule.isInitialized this = true ->
  RAGModule.deleteStorage env this w
  = QdrantProvider.deleteStorage env
      (qdrantConfig (RAGModule.config this)) w.
Proof.
  intros H. unfold RAGModule.deleteStorage, RAGModule.ensureInitialized.
  rewrite H. reflexivity.
Qed.

End FacadeFacts.

(* ===================================================================== *)
(** * The properties at work on the scripted environment *)
(* ===================================================================== *)

Lemma addDocument_one_id_per_embedded_chunk_witness :
  let chunks := ["alpha"; "beta"; "gamma"] in
  let metadata : gmap string JsVal := {["source" := JStr "a.txt"]} in
  let w := Mock.world Mock.empty_store ["beta"] in
  (chunks <> []
   /\ embed Mock.env chunks (embedder w)
      = (inr [Some [1%float]; None; Some [1%float]], ["beta"]))
  /\ exists (points : list PointStruct) (s' : Mock.Store),
       map point_id points = ["uuid-0"; "uuid-1"]
       /\ points !! 1%nat
          = Some (mkPoint "uuid-1" [1%float]
                    (<["chunkIndex" := JNum 2]>
                       (<["content" := JStr "gamma"]> metadata)))
       /\ QdrantProvider.addDocument_chunks Mock.env Mock.qdrant chunks
            metadata w
          = (Done ["uuid-0"; "uuid-1"],
             mkWorld s' ["beta"] 2
               [CallEmbed chunks;
                CallUpsert "docs" (mkUpsert true points)]).
Proof.
  intros chunks metadata w.
  assert (H1 : chunks <> []) by discriminate.
  assert (H2 : embed Mock.env chunks (embedder w)
               = (inr [Some [1%float]; None; Some [1%float]], ["beta"]))
    by reflexivity.
  split; [split; [exact H1 | exact H2] |].
  destruct (addDocument_one_id_per_embedded_chunk Mock.env Mock.qdrant
              chunks metadata w _ _ H1 H2)
    as (points & _ & _ & _ & Hids & Hat & _ & Hrun).
  exists points. eexists. split; [exact Hids |]. split.
  - destruct (Hat 1%nat 2%nat eq_refl) as (chunk & v & Hc & Hv & Hp).
    injection Hc as <-. injection Hv as <-. exact Hp.
  - apply Hrun; [discriminate | reflexivity].
Defined.

Lemma addDocument_nothing_to_upsert_no_store_call_witness :
  let metadata : gmap string JsVal := {["source" := JStr "a.txt"]} in
  let w := Mock.world Mock.empty_store ["beta"] in
  QdrantProvider.addDocument_chunks Mock.env Mock.qdrant [] metadata w
  = (Done [], w)
  /\ exists w' : World Mock.Store Mock.Emb,
       QdrantProvider.addDocument_chunks Mock.env Mock.qdrant
         ["beta"; "beta"] metadata w = (Done [], w')
       /\ store w' = store w
       /\ calls w' = calls w ++ [CallEmbed ["beta"; "beta"]]
       /\ store_calls (calls w') = store_calls (calls w).
Proof.
  intros metadata w.
  destruct (addDocument_nothing_to_upsert_no_store_call Mock.env Mock.qdrant)
    as (Hzero & Habsent & _).
  split; [apply Hzero |].
  apply (Habsent ["beta"; "beta"] metadata w [None; None] ["beta"]).
  - discriminate.
  - reflexivity.
  - intros [| [| i]] v Hi; simpl in *; first [discriminate | lia].
Defined.

Lemma retrieveContext_maps_each_hit_witness :
  let payload : gmap string JsVal :=
    <["source" := JStr "a.txt"]> {["content" := JStr "UBC is a university."]} in
  let hits := [mkHit (IdNum 1) 0.75%float (Some payload);
               mkHit (IdNum 2) 0.5%float None] in
  let w := Mock.world (Mock.mkStore true [] [] hits) [] in
  exists w' : World Mock.Store Mock.Emb,
    QdrantProvider.retrieveContext Mock.env Mock.qdrant "Tell me about UBC"
      (mkOptions (Some 1) None None) w
    = (Done [mkChunk (JStr "UBC is a university.") 0.75%float
               (Some {["source" := JStr "a.txt"]});
             mkChunk (JStr "") 0.5%float None],
       w').
Proof.
  intros payload hits w.
  destruct (retrieveContext_maps_each_hit Mock.env Mock.qdrant
              "Tell me about UBC" (mkOptions (Some 1) None None) w
              [Some [1%float]] [] [1%float] hits (store w)
              eq_refl eq_refl eq_refl)
    as (chunks & w' & Hrun & _ & _).
  exists w'. rewrite Hrun.
  vm_compute in Hrun. injection Hrun as <- <-.
  vm_compute. reflexivity.
Defined.

(** What the loop of the scan takes for "no cursor". *)
Lemma truthy_cursor_false (c : option PointId) :
  truthy_cursor c = false <->
  c = None \/ c = Some (IdNum 0) \/ c = Some (IdStr "").
Proof.
  split.
  - destruct c as [[n | s] |]; simpl; intros H; auto.
    + right; left. destruct (Z.eqb_spec n 0); [subst; reflexivity | discriminate].
    + right; right. destruct (String.eqb_spec s ""); [subst; reflexivity | discriminate].
  - intros [-> | [-> | ->]]; reflexivity.
Qed.

Lemma getDocumentsByMetadata_follows_cursor_witness :
  let filter : gmap string JsVal := {["source" := JStr "b.txt"]} in
  let payload : gmap string JsVal :=
    <["content" := JStr "second"]> {["source" := JStr "b.txt"]} in
  let p1 := mkStored (IdNum 1) (Some payload) (Some [1%float]) in
  let p2 := mkStored (IdStr "c0ffee") None None in
  let page1 := mkPage [p1] (Some (IdNum 7)) in
  let page2 := mkPage [p2] None in
  let s := Mock.mkStore true [] [page1; page2] [] in
  let steps := [(None, page1); (Some (IdNum 7), page2)] in
  let request offset :=
    CallScroll "docs"
      (mkScroll (mkFilter [mkCondition "source" (JStr "b.txt")]) 250 offset
         true true) in
  ScrollRun Mock.env "docs" (mkFilter (QdrantProvider.conditions filter))
    None s steps (Mock.mkStore true [] [] [])
  /\ QdrantProvider.getDocumentsByMetadata Mock.env Mock.qdrant 2 filter
       (Mock.world s [])
     = (Done [mkFound (IdNum 1) (Some (JStr "second")) (Some payload)
                (Some [1%float]);
              mkFound (IdStr "c0ffee") None None None],
        mkWorld (Mock.mkStore true [] [] []) [] 0
          [request None; request (Some (IdNum 7))]).
Proof.
  intros filter payload p1 p2 page1 page2 s steps request.
  assert (Hrun : ScrollRun Mock.env "docs"
                   (mkFilter (QdrantProvider.conditions filter))
                   None s steps (Mock.mkStore true [] [] [])).
  { eapply run_more; [reflexivity | reflexivity |].
    eapply run_last; reflexivity. }
  split; [exact Hrun |].
  destruct (getDocumentsByMetadata_follows_cursor Mock.env Mock.qdrant
              filter (Mock.world s []) steps _ Hrun)
    as (_ & Hget & _ & _).
  rewrite (Hget 2%nat (le_n 2)). vm_compute. reflexivity.
Defined.

Lemma deleteStorage_absent_collection_is_success_witness :
  let absent := "Not found: Collection `docs` doesn't exist!" in
  (* the collection is there, then it is not: both calls complete *)
  (QdrantProvider.deleteStorage Mock.env Mock.qdrant
     (Mock.world Mock.empty_store [])
   = (Done tt,
      mkWorld (Mock.mkStore false [] [] []) [] 0
        [CallDeleteCollection "docs"])
   /\ QdrantProvider.deleteStorage Mock.env Mock.qdrant
        (mkWorld (Mock.mkStore false [] [] []) [] 0
           [CallDeleteCollection "docs"])
      = (Done tt,
         mkWorld (Mock.mkStore false [] [] []) [] 0
           [CallDeleteCollection "docs"; CallDeleteCollection "docs"]))
  (* the store throws that the collection is not found: the call completes *)
  /\ (Mock.client_deleteCollection "docs" (Mock.mkStore false [] [] [])
      = (inl (ErrorObj absent), Mock.mkStore false [] [] [])
      /\ fst (QdrantProvider.deleteStorage Mock.env Mock.qdrant
                (Mock.world (Mock.mkStore false [] [] []) []))
         = Done tt)
  (* the store cannot be reached: the call raises the wrapped error *)
  /\ fst (QdrantProvider.deleteStorage MockFaults.env_store_down Mock.qdrant
            (Mock.world Mock.empty_store []))
     = Raised (ErrorObj
         "Qdrant collection deletion failed: connect ECONNREFUSED 127.0.0.1:6333")
  (* the store throws a string, not an [Error]: raised, whatever it reads *)
  /\ fst (QdrantProvider.deleteStorage MockFaults.env_store_throws_text
            Mock.qdrant (Mock.world Mock.empty_store []))
     = Raised (ErrorObj "Qdrant collection deletion failed: not found").
Proof.
  intros absent.
  assert (Habsent : says_not_found absent).
  { exists "", "Not found", ": Collection `docs` doesn't exist!".
    split; reflexivity. }
  split; [| split; [| split]].
  - apply (proj2 (proj2 (proj2 (proj2
             (deleteStorage_absent_collection_is_success Mock.env Mock.qdrant
                (Mock.world Mock.empty_store []) (inr true)
                (Mock.mkStore false [] [] []) eq_refl))))
             (inl (ErrorObj absent)) (Mock.mkStore false [] [] []) I eq_refl
             Habsent).
  - split; [reflexivity |].
    apply (proj1 (proj2
             (deleteStorage_absent_collection_is_success Mock.env Mock.qdrant
                (Mock.world (Mock.mkStore false [] [] []) [])
                (inl (ErrorObj absent)) (Mock.mkStore false [] [] [])
                eq_refl))).
    exact Habsent.
  - apply (proj1 (proj2 (proj2
             (deleteStorage_absent_collection_is_success
                MockFaults.env_store_down Mock.qdrant
                (Mock.world Mock.empty_store []) (inl MockFaults.down)
                Mock.empty_store eq_refl)))
             "connect ECONNREFUSED 127.0.0.1:6333" eq_refl).
    intros Hsays. apply test_not_found_iff in Hsays. discriminate Hsays.
  - apply (proj1 (proj2 (proj2 (proj2
             (deleteStorage_absent_collection_is_success
                MockFaults.env_store_throws_text Mock.qdrant
                (Mock.world Mock.empty_store []) (inl (NonError "not found"))
                Mock.empty_store eq_refl))))
             "not found" eq_refl).
Defined.

(** The empty text through the whole of [addDocument]: its single chunk
    is the empty string, which is embedded and upserted. *)
Example addDocument_empty_content :
  QdrantProvider.addDocument Mock.env Mock.qdrant "" None
    (Mock.world Mock.empty_store [])
  = (Done ["uuid-0"],
     mkWorld
       (Mock.mkStore true
          [mkPoint "uuid-0" [1%float]
             (<["chunkIndex" := JNum 0]> {["content" := JStr ""]})]
          [] [])
       [] 1
       [CallEmbed [""];
        CallUpsert "docs"
          (mkUpsert true
             [mkPoint "uuid-0" [1%float]
                (<["chunkIndex" := JNum 0]> {["content" := JStr ""]})])]).
Proof. vm_compute. reflexivity. Qed.

(* ===================================================================== *)
(** * Further properties of the default chunker *)
(* ===================================================================== *)

Section ChunkerShape.

(** With [0 <= overlap < chunkSize], the loop entered inside the text
    leaves through [break]: every window but the last is a full window
    that ends before the end of the text, the last one ends with the text,
    and together the windows cover the text from [i] on. *)
Lemma simpleChunker_loop_windows (text : string) (cs ov : Z) :
  0 <= ov -> ov < cs ->
  forall (fuel : nat) (i : Z) (acc : list Window),
    0 <= i < Js.length text ->
    (Z.to_nat (Js.length text - i) < fuel)%nat ->
    exists ws : list Window,
      simpleChunker_loop fuel text cs ov i acc = Some (acc ++ ws)
      /\ ws <> []
      /\ (forall (k : nat) (w : Window), ws !! k = Some w ->
            win_start w = i + Z.of_nat k * (cs - ov)
            /\ 0 <= win_start w < Js.length text
            /\ ((S k < length ws)%nat ->
                win_start w + cs < Js.length text
                /\ win_text w
                   = Js.substring text (win_start w) (win_start w + cs))
            /\ (S k = length ws ->
                Js.length text <= win_start w + cs
                /\ win_text w
                   = Js.substring text (win_start w) (Js.length text)))
      /\ (forall p : Z, i <= p < Js.length text ->
            exists (k : nat) (w : Window),
              ws !! k = Some w /\ win_start w <= p < win_start w + cs).
Proof.
  intros Hov Hstep. induction fuel as [| fuel IH]; intros i acc Hi Hfuel;
    [lia |].
  simpl. destruct (Z.ltb_spec i (Js.length text)) as [Hlt | Hge]; [| lia].
  set (w := mkWindow i _).
  destruct (Z.eqb_spec (Z.min (i + cs) (Js.length text)) (Js.length text))
    as [Hend | Hend].
  - exists [w]. split; [reflexivity |]. split; [discriminate |]. split.
    + intros [| k] w' Hk; simpl in Hk; [| discriminate].
      injection Hk as <-. simpl.
      split; [lia |]. split; [lia |]. split; [intros; lia |].
      intros _. split; [lia |]. rewrite Hend. reflexivity.
    + intros p Hp. exists 0%nat, w. split; [reflexivity |]. simpl. lia.
  - destruct (IH (i + (cs - ov)) (acc ++ [w]))
      as (ws & Hrun & Hne & Hws & Hcover); [lia | lia |].
    exists (w :: ws). split.
    { rewrite Hrun, <- app_assoc. reflexivity. }
    split; [discriminate |]. split.
    + intros [| k] w' Hk; simpl in Hk.
      * injection Hk as <-. simpl.
        split; [lia |]. split; [lia |]. split.
        -- intros _. split; [lia |]. f_equal. lia.
        -- intros Hlen. destruct ws; [congruence | simpl in Hlen; lia].
      * destruct (Hws k w' Hk) as (Hs & Hin & Hfull & Hlast).
        split; [lia |]. split; [exact Hin |]. split.
        -- intros Hlen. apply Hfull. simpl in Hlen. lia.
        -- intros Hlen. apply Hlast. simpl in Hlen. lia.
    + intros p Hp. destruct (Z.lt_ge_cases p (i + (cs - ov))) as [Hp1 | Hp2].
      * exists 0%nat, w. split; [reflexivity |]. simpl. lia.
      * destruct (Hcover p ltac:(lia)) as (k & w' & Hk & Hin).
        exists (S k), w'. split; [exact Hk | exact Hin].
Qed.

(** The windows of [simpleChunker] for a text longer than a window. *)
Lemma simpleChunker_windows_long (text : string) (cs ov : Z) :
  0 <= ov -> ov < cs -> cs < Js.length text ->
  exists ws : list Window,
    (forall fuel : nat, (chunker_fuel text <= fuel)%nat ->
       simpleChunker_windows fuel text cs ov = Some ws)
    /\ ws <> []
    /\ (forall (k : nat) (w : Window), ws !! k = Some w ->
          win_start w = Z.of_nat k * (cs - ov)
          /\ 0 <= win_start w < Js.length text
          /\ ((S k < length ws)%nat ->
              win_start w + cs < Js.length text
              /\ win_text w
                 = Js.substring text (win_start w) (win_start w + cs))
          /\ (S k = length ws ->
              Js.length text <= win_start w + cs
              /\ win_text w
                 = Js.substring text (win_start w) (Js.length text)))
    /\ (forall p : Z, 0 <= p < Js.length text ->
          exists (k : nat) (w : Window),
            ws !! k = Some w /\ win_start w <= p < win_start w + cs).
Proof.
  intros Hov Hstep Hlong.
  destruct (simpleChunker_loop_windows text cs ov Hov Hstep
              (chunker_fuel text) 0 [])
    as (ws & Hrun & Hne & Hws & Hcover).
  - lia.
  - unfold chunker_fuel, Js.length. lia.
  - exists ws. split; [| split; [exact Hne | split; [| exact Hcover]]].
    + intros fuel Hfuel. unfold simpleChunker_windows.
      destruct (Z.leb_spec (Js.length text) cs); [lia |].
      eapply simpleChunker_loop_mono; eassumption.
    + intros k w Hk. destruct (Hws k w Hk) as (Hs & Hrest).
      split; [lia | exact Hrest].
Qed.

Lemma simpleChunker_of_windows (fuel : nat) (text : string) (cs ov : Z)
    (ws : list Window) :
  simpleChunker_windows fuel text cs ov = Some ws ->
  simpleChunker fuel text cs ov = Some (map win_text ws).
Proof. intros H. unfold simpleChunker. rewrite H. reflexivity. Qed.

(** A unit of a window cut inside the text is the unit of the text. *)
Lemma js_substring_get (s : string) (i e : Z) (p : nat) :
  0 <= i -> i <= e -> e <= Js.length s ->
  (p < Z.to_nat (e - i))%nat ->
  String.get p (Js.substring s i e) = String.get (p + Z.to_nat i) s.
Proof.
  intros Hi Hie He Hp. unfold Js.substring, Js.clamp, Js.length in *.
  replace (Z.min (Z.min (Z.max i 0) _) (Z.min (Z.max e 0) _)) with i by lia.
  replace (Z.max (Z.min (Z.max i 0) _) (Z.min (Z.max e 0) _)) with e by lia.
  apply substring_correct1. exact Hp.
Qed.

End ChunkerShape.

(** X1. For a text longer than a window and [0 <= overlap < chunkSize],
    every chunk but the last holds exactly [chunkSize] units and ends
    before the end of the text; the last chunk ends with the text and
    holds between 1 and [chunkSize] units. *)
Theorem simpleChunker_chunk_sizes (text : string) (chunkSize overlap : Z) :
  0 <= overlap -> overlap < chunkSize -> chunkSize < Js.length text ->
  exists chunks : list string,
    (forall fuel : nat, (chunker_fuel text <= fuel)%nat ->
       simpleChunker fuel text chunkSize overlap = Some chunks)
    /\ chunks <> []
    /\ forall (k : nat) (chunk : string), chunks !! k = Some chunk ->
         ((S k < length chunks)%nat ->
          Js.length chunk = chunkSize
          /\ Z.of_nat k * (chunkSize - overlap) + chunkSize < Js.length text)
         /\ (S k = length chunks ->
             Z.of_nat k * (chunkSize - overlap) + Js.length chunk
             = Js.length text
             /\ 0 < Js.length chunk <= chunkSize).
Proof.
  intros Hov Hstep Hlong.
  destruct (simpleChunker_windows_long text chunkSize overlap Hov Hstep Hlong)
    as (ws & Hrun & Hne & Hws & _).
  exists (map win_text ws). split; [| split].
  - intros fuel Hfuel. apply simpleChunker_of_windows, Hrun, Hfuel.
  - destruct ws; [congruence | discriminate].
  - intros k chunk Hk. rewrite list_lookup_fmap in Hk.
    destruct (ws !! k) as [w |] eqn:Hw; [| discriminate].
    injection Hk as <-. rewrite length_map.
    destruct (Hws k w Hw) as (Hs & Hin & Hfull & Hlast). split.
    + intros Hlen. destruct (Hfull Hlen) as [Hend Htext].
      rewrite Htext, js_substring_length; lia.
    + intros Hlen. destruct (Hlast Hlen) as [Hend Htext].
      rewrite Htext, js_substring_length; lia.
Qed.

Lemma simpleChunker_chunk_sizes_witness :
  exists chunks : list string,
    (forall fuel : nat, (chunker_fuel "abcdefghij" <= fuel)%nat ->
       simpleChunker fuel "abcdefghij" 4 1 = Some chunks)
    /\ chunks <> []
    /\ forall (k : nat) (chunk : string), chunks !! k = Some chunk ->
         ((S k < length chunks)%nat ->
          Js.length chunk = 4
          /\ Z.of_nat k * (4 - 1) + 4 < Js.length "abcdefghij")
         /\ (S k = length chunks ->
             Z.of_nat k * (4 - 1) + Js.length chunk
             = Js.length "abcdefghij"
             /\ 0 < Js.length chunk <= 4).
Proof.
  apply (simpleChunker_chunk_sizes "abcdefghij" 4 1);
    [lia | lia | vm_compute; reflexivity].
Defined.

(** X2. With [0 <= overlap < chunkSize] no unit of the text is lost: the
    unit at any position [p] of the text is found in some chunk [k], at
    position [p - k * (chunkSize - overlap)] of that chunk. *)
Theorem simpleChunker_covers_text (text : string) (chunkSize overlap : Z) :
  0 <= overlap -> overlap < chunkSize ->
  exists chunks : list string,
    (forall fuel : nat, (chunker_fuel text <= fuel)%nat ->
       simpleChunker fuel text chunkSize overlap = Some chunks)
    /\ forall p : nat, (p < String.length text)%nat ->
         exists (k : nat) (chunk : string),
           chunks !! k = Some chunk
           /\ Z.of_nat k * (chunkSize - overlap) <= Z.of_nat p
              < Z.of_nat k * (chunkSize - overlap) + Js.length chunk
           /\ String.get
                (p - Z.to_nat (Z.of_nat k * (chunkSize - overlap))) chunk
              = String.get p text.
Proof.
  intros Hov Hstep.
  destruct (Z.le_gt_cases (Js.length text) chunkSize) as [Hshort | Hlong].
  - exists [text]. split.
    + intros fuel _. unfold simpleChunker, simpleChunker_windows.
      destruct (Z.leb_spec (Js.length text) chunkSize); [reflexivity | lia].
    + intros p Hp. exists 0%nat, text. split; [reflexivity |].
      unfold Js.length. split; [lia |]. f_equal. simpl. lia.
  - destruct (simpleChunker_windows_long text chunkSize overlap Hov Hstep
                Hlong) as (ws & Hrun & Hne & Hws & Hcover).
    exists (map win_text ws). split.
    + intros fuel Hfuel. apply simpleChunker_of_windows, Hrun, Hfuel.
    + intros p Hp.
      destruct (Hcover (Z.of_nat p)) as (k & w & Hk & Hin);
        [unfold Js.length; lia |].
      exists k, (win_text w). split.
      { rewrite list_lookup_fmap, Hk. reflexivity. }
      destruct (Hws k w Hk) as (Hs & Hstart & Hfull & Hlast).
      assert (Hlen : (S k < length ws)%nat \/ S k = length ws).
      { apply lookup_lt_Some in Hk. lia. }
      rewrite <- Hs.
      destruct Hlen as [Hlen | Hlen].
      * destruct (Hfull Hlen) as [Hend Htext]. rewrite Htext.
        rewrite js_substring_length by lia. split; [lia |].
        rewrite js_substring_get by lia. f_equal. lia.
      * destruct (Hlast Hlen) as [Hend Htext]. rewrite Htext.
        rewrite js_substring_length by lia. unfold Js.length in *.
        split; [lia |].
        rewrite js_substring_get by (unfold Js.length; lia). f_equal. lia.
Qed.

Lemma simpleChunker_covers_text_witness :
  exists chunks : list string,
    (forall fuel : nat, (chunker_fuel "abcdefghij" <= fuel)%nat ->
       simpleChunker fuel "abcdefghij" 4 1 = Some chunks)
    /\ forall p : nat, (p < String.length "abcdefghij")%nat ->
         exists (k : nat) (chunk : string),
           chunks !! k = Some chunk
           /\ Z.of_nat k * (4 - 1) <= Z.of_nat p
              < Z.of_nat k * (4 - 1) + Js.length chunk
           /\ String.get (p - Z.to_nat (Z.of_nat k * (4 - 1))) chunk
              = String.get p "abcdefghij".
Proof.
  apply (simpleChunker_covers_text "abcdefghij" 4 1); lia.
Defined.

(** X3. With [0 <= overlap < chunkSize], two consecutive chunks share
    [overlap] units of the text: unit [j] of the later chunk and unit
    [chunkSize - overlap + j] of the earlier one are both the unit of the
    text at the start of the later chunk plus [j], for every
    [j < overlap]. *)
Theorem simpleChunker_consecutive_chunks_overlap
    (text : string) (chunkSize overlap : Z) :
  0 <= overlap -> overlap < chunkSize ->
  exists chunks : list string,
    (forall fuel : nat, (chunker_fuel text <= fuel)%nat ->
       simpleChunker fuel text chunkSize overlap = Some chunks)
    /\ forall (k : nat) (a b : string),
         chunks !! k = Some a -> chunks !! S k = Some b ->
         forall j : nat, Z.of_nat j < overlap ->
           let q := (Z.to_nat (Z.of_nat (S k) * (chunkSize - overlap)) + j)%nat
           in
           (q < String.length text)%nat
           /\ String.get (Z.to_nat (chunkSize - overlap) + j) a
              = String.get q text
           /\ String.get j b = String.get q text.
Proof.
  intros Hov Hstep.
  destruct (Z.le_gt_cases (Js.length text) chunkSize) as [Hshort | Hlong].
  - exists [text]. split.
    + intros fuel _. unfold simpleChunker, simpleChunker_windows.
      destruct (Z.leb_spec (Js.length text) chunkSize); [reflexivity | lia].
    + intros k a b _ Hb. destruct k; discriminate.
  - destruct (simpleChunker_windows_long text chunkSize overlap Hov Hstep
                Hlong) as (ws & Hrun & Hne & Hws & _).
    exists (map win_text ws). split.
    + intros fuel Hfuel. apply simpleChunker_of_windows, Hrun, Hfuel.
    + intros k a b Ha Hb j Hj. cbv zeta.
      rewrite list_lookup_fmap in Ha, Hb.
      destruct (ws !! k) as [wa |] eqn:Hwa; [| discriminate].
      destruct (ws !! S k) as [wb |] eqn:Hwb; [| discriminate].
      injection Ha as <-. injection Hb as <-.
      destruct (Hws k wa Hwa) as (Hsa & Hina & Hfulla & _).
      destruct (Hws (S k) wb Hwb) as (Hsb & Hinb & Hfullb & Hlastb).
      assert (Hk : (S k < length ws)%nat)
        by (apply lookup_lt_Some in Hwb; lia).
      destruct (Hfulla Hk) as [Henda Hta].
      assert (Hsab : win_start wb = win_start wa + (chunkSize - overlap))
        by lia.
      unfold Js.length in *.
      split; [lia |]. split.
      * rewrite Hta, js_substring_get by (unfold Js.length; lia).
        f_equal. lia.
      * assert (Hlen : (S (S k) < length ws)%nat \/ S (S k) = length ws)
          by lia.
        destruct Hlen as [Hlen | Hlen].
        -- destruct (Hfullb Hlen) as [Hendb Htb].
           rewrite Htb, js_substring_get by (unfold Js.length; lia).
           f_equal. lia.
        -- destruct (Hlastb Hlen) as [Hendb Htb].
           rewrite Htb, js_substring_get by (unfold Js.length; lia).
           f_equal. lia.
Qed.

Lemma simpleChunker_consecutive_chunks_overlap_witness :
  exists chunks : list string,
    (forall fuel : nat, (chunker_fuel "abcdefghij" <= fuel)%nat ->
       simpleChunker fuel "abcdefghij" 4 1 = Some chunks)
    /\ forall (k : nat) (a b : string),
         chunks !! k = Some a -> chunks !! S k = Some b ->
         forall j : nat, Z.of_nat j < 1 ->
           let q := (Z.to_nat (Z.of_nat (S k) * (4 - 1)) + j)%nat in
           (q < String.length "abcdefghij")%nat
           /\ String.get (Z.to_nat (4 - 1) + j) a
              = String.get q "abcdefghij"
           /\ String.get j b = String.get q "abcdefghij".
Proof.
  apply (simpleChunker_consecutive_chunks_overlap "abcdefghij" 4 1); lia.
Defined.

Section ChunkerDivergence.

(** Without a positive step the loop stays at or before the start of the
    text and no window reaches the end. *)
Lemma simpleChunker_loop_stuck (text : string) (cs ov : Z) :
  cs <= ov -> cs < Js.length text -> 0 < Js.length text ->
  forall (fuel : nat) (i : Z) (acc : list Window),
    i <= 0 -> simpleChunker_loop fuel text cs ov i acc = None.
Proof.
  intros Hstep Hlong Hpos.
  induction fuel as [| fuel IH]; intros i acc Hi; [reflexivity |].
  simpl. destruct (Z.ltb_spec i (Js.length text)); [| lia].
  destruct (Z.eqb_spec (Z.min (i + cs) (Js.length text)) (Js.length text));
    [lia |].
  apply IH. lia.
Qed.

End ChunkerDivergence.

(** X4. With [overlap >= chunkSize], on a non-empty text longer than
    [chunkSize], the chunker never returns: whatever the fuel, the loop is
    still running when it is spent. *)
Theorem simpleChunker_diverges (text : string) (chunkSize overlap : Z) :
  text <> "" -> chunkSize <= overlap -> chunkSize < Js.length text ->
  forall fuel : nat, simpleChunker fuel text chunkSize overlap = None.
Proof.
  intros Hne Hstep Hlong fuel.
  unfold simpleChunker, simpleChunker_windows.
  destruct (Z.leb_spec (Js.length text) chunkSize); [lia |].
  rewrite simpleChunker_loop_stuck;
    [reflexivity | exact Hstep | exact Hlong | | lia].
  apply js_length_pos. exact Hne.
Qed.

Lemma simpleChunker_diverges_witness :
  simpleChunker 1000 "abcdefghij" 4 4 = None.
Proof.
  apply (simpleChunker_diverges "abcdefghij" 4 4);
    [discriminate | lia | vm_compute; reflexivity].
Defined.

(* ===================================================================== *)
(** * Further properties of the provider *)
(* ===================================================================== *)

Section DeletionFacts.

Context {Store Emb : Type}.
Variable env : Env Store Emb.
Variable config : QdrantConfig.

Lemma conditions_empty_iff (filter : gmap string JsVal) :
  QdrantProvider.conditions filter = [] <-> filter = ∅.
Proof.
  unfold QdrantProvider.conditions. rewrite <- map_to_list_empty_iff.
  destruct (map_to_list filter); simpl; split; intros H;
    first [reflexivity | discriminate].
Qed.

(** X5. [deleteDocumentsByIds] with no id returns without calling the
    store. With ids it sends one deletion of exactly these points, waiting
    for the store, and returns; when the store throws, it raises the error
    wrapped as "Qdrant deletion by ID failed: ...". *)
Theorem deleteDocumentsByIds_one_batch (ids : list string)
    (w : World Store Emb) :
  (ids = [] ->
   QdrantProvider.deleteDocumentsByIds env config ids w = (Done tt, w))
  /\ (ids <> [] ->
      forall (answer : Thrown + unit) (s' : Store),
        client_delete env (collectionName config)
          (mkDelete (ByPoints ids) true) (store w) = (answer, s') ->
        QdrantProvider.deleteDocumentsByIds env config ids w
        = (match answer with
           | inr _ => Done tt
           | inl error =>
               Raised (ErrorObj (String.append
                         "Qdrant deletion by ID failed: " (describe error)))
           end,
           mkWorld s' (embedder w) (uuid_count w)
             (calls w ++
              [CallDelete (collectionName config)
                 (mkDelete (ByPoints ids) true)]))).
Proof.
  split.
  - intros ->. reflexivity.
  - intros Hne answer s' H. unfold QdrantProvider.deleteDocumentsByIds.
    destruct ids as [| id ids]; [congruence |].
    change (length (id :: ids) =? 0)%nat with false. cbv iota.
    unfold try_catch, delete_points, call_store. rewrite H.
    destruct answer as [error | []]; reflexivity.
Qed.


(** X6. [deleteDocumentsByMetadata] selects with the same conjunction of
    field-equals-value conditions as the scan of [getDocumentsByMetadata].
    The empty filter is the exception: the deletion does nothing at all,
    whereas a scan with the empty filter sends no condition. *)
Theorem deleteDocumentsByMetadata_same_filter_as_scan
    (filter : gmap string JsVal) (w : World Store Emb) :
  (filter = ∅ ->
   QdrantProvider.deleteDocumentsByMetadata env config filter w = (Done tt, w)
   /\ forall offset : option PointId,
        scroll_filter (page_request filter offset) = mkFilter [])
  /\ (filter <> ∅ ->
      forall (answer : Thrown + unit) (s' : Store),
        client_delete env (collectionName config)
          (mkDelete (ByFilter (scroll_filter (page_request filter None))) true)
          (store w) = (answer, s') ->
        QdrantProvider.deleteDocumentsByMetadata env config filter w
        = (match answer with
           | inr _ => Done tt
           | inl error =>
               Raised (ErrorObj (String.append
                         "Qdrant deletion by filter failed: "
                         (describe error)))
           end,
           mkWorld s' (embedder w) (uuid_count w)
             (calls w ++
              [CallDelete (collectionName config)
                 (mkDelete
                    (ByFilter (scroll_filter (page_request filter None)))
                    true)])))
  /\ (forall (key : string) (value : JsVal),
        filter !! key = Some value <->
        In (mkCondition key value)
           (must (scroll_filter (page_request filter None)))).
Proof.
  split; [| split].
  - intros ->. split; [reflexivity |]. intros offset. reflexivity.
  - intros Hne answer s' H. unfold QdrantProvider.deleteDocumentsByMetadata.
    destruct (map_to_list filter) as [| kv l] eqn:E.
    { apply map_to_list_empty_iff in E. contradiction. }
    change (length (kv :: l) =? 0)%nat with false. cbv iota.
    unfold try_catch, delete_points, call_store.
    unfold page_request in H. simpl in H. rewrite H.
    destruct answer as [error | []]; reflexivity.
  - intros key value. unfold page_request. simpl.
    unfold QdrantProvider.conditions. rewrite in_map_iff. split.
    + intros H. exists (key, value). split; [reflexivity |].
      apply list_elem_of_In, elem_of_map_to_list. exact H.
    + intros [[k v] [Heq Hin]]. simpl in Heq. injection Heq as -> ->.
      apply list_elem_of_In, elem_of_map_to_list in Hin. exact Hin.
Qed.


End DeletionFacts.

Lemma deleteDocumentsByIds_one_batch_witness :
  QdrantProvider.deleteDocumentsByIds Mock.env Mock.qdrant []
    (Mock.world Mock.empty_store [])
  = (Done tt, Mock.world Mock.empty_store [])
  /\ QdrantProvider.deleteDocumentsByIds MockFaults.env_store_down
       Mock.qdrant ["uuid-0"] (Mock.world Mock.empty_store [])
     = (Raised (ErrorObj
          "Qdrant deletion by ID failed: connect ECONNREFUSED 127.0.0.1:6333"),
        mkWorld Mock.empty_store [] 0
          [CallDelete "docs" (mkDelete (ByPoints ["uuid-0"]) true)]).
Proof.
  split.
  - apply (deleteDocumentsByIds_one_batch Mock.env Mock.qdrant []).
    reflexivity.
  - apply (proj2 (deleteDocumentsByIds_one_batch MockFaults.env_store_down
                    Mock.qdrant ["uuid-0"] (Mock.world Mock.empty_store []))
             ltac:(discriminate) (inl MockFaults.down) Mock.empty_store
             eq_refl).
Defined.

Lemma deleteDocumentsByMetadata_same_filter_as_scan_witness :
  let filter : gmap string JsVal := {["source" := JStr "b.txt"]} in
  QdrantProvider.deleteDocumentsByMetadata Mock.env Mock.qdrant ∅
    (Mock.world Mock.empty_store [])
  = (Done tt, Mock.world Mock.empty_store [])
  /\ QdrantProvider.deleteDocumentsByMetadata Mock.env Mock.qdrant filter
       (Mock.world Mock.empty_store [])
     = (Done tt,
        mkWorld Mock.empty_store [] 0
          [CallDelete "docs"
             (mkDelete
                (ByFilter (mkFilter [mkCondition "source" (JStr "b.txt")]))
                true)]).
Proof.
  intros filter. split.
  - apply (proj1 (deleteDocumentsByMetadata_same_filter_as_scan Mock.env
                    Mock.qdrant ∅ (Mock.world Mock.empty_store []))
             eq_refl).
  - assert (Hne : filter <> ∅).
    { intros H. apply (f_equal (fun m => m !! "source")) in H.
      vm_compute in H. discriminate. }
    rewrite (proj1 (proj2 (deleteDocumentsByMetadata_same_filter_as_scan
                             Mock.env Mock.qdrant filter
                             (Mock.world Mock.empty_store [])))
               Hne (inr tt) Mock.empty_store eq_refl).
    vm_compute. reflexivity.
Defined.

Section FailureFacts.

Context {Store Emb : Type}.
Variable env : Env Store Emb.
Variable config : QdrantConfig.

Lemma embeddings_embed_throws (texts : list string) (w : World Store Emb)
    (e : Thrown) (e' : Emb) :
  embed env texts (embedder w) = (inl e, e') ->
  embeddings_embed env texts w
  = (Raised e,
     mkWorld (store w) e' (uuid_count w) (calls w ++ [CallEmbed texts])).
Proof. intros H. unfold embeddings_embed. rewrite H. reflexivity. Qed.



(** X8. The ways [retrieveContext] fails. An error of the embeddings call
    is raised as it is. When the answer holds no vector for the query, the
    call raises "Failed to generate embedding for the query text." and the
    store is not searched. When the search throws, the error is raised
    wrapped as "Qdrant search failed: ...". *)
Theorem retrieveContext_failures (queryText : string)
    (options : RetrievalOptions) (w : World Store Emb) :
  (forall (error : Thrown) (e' : Emb),
     embed env [queryText] (embedder w) = (inl error, e') ->
     QdrantProvider.retrieveContext env config queryText options w
     = (Raised error,
        mkWorld (store w) e' (uuid_count w)
          (calls w ++ [CallEmbed [queryText]])))
  /\ (forall (embeddings : list (option Vector)) (e' : Emb),
        embed env [queryText] (embedder w) = (inr embeddings, e') ->
        (head embeddings = None \/ head embeddings = Some None) ->
        QdrantProvider.retrieveContext env config queryText options w
        = (Raised
             (ErrorObj "Failed to generate embedding for the query text."),
           mkWorld (store w) e' (uuid_count w)
             (calls w ++ [CallEmbed [queryText]])))
  /\ (forall (embeddings : list (option Vector)) (e' : Emb)
        (queryVector : Vector) (error : Thrown) (s' : Store),
        embed env [queryText] (embedder w) = (inr embeddings, e') ->
        head embeddings = Some (Some queryVector) ->
        client_search env (collectionName config)
          (mkSearch queryVector (default 5 (opt_limit options))
             (opt_scoreThreshold options) None true false) (store w)
        = (inl error, s') ->
        exists w' : World Store Emb,
          QdrantProvider.retrieveContext env config queryText options w
          = (Raised (ErrorObj (String.append "Qdrant search failed: "
                                 (describe error))),
             w')).
Proof.
  split; [| split].
  - intros error e' Hembed. unfold QdrantProvider.retrieveContext.
    rewrite (bind_raised _ _ _ _ _
               (embeddings_embed_throws _ _ _ _ Hembed)).
    reflexivity.
  - intros embeddings e' Hembed Hhead.
    unfold QdrantProvider.retrieveContext.
    rewrite (bind_done _ _ _ _ _ (embeddings_embed_ok env _ _ _ _ Hembed)).
    destruct Hhead as [-> | ->]; reflexivity.
  - intros embeddings e' queryVector error s' Hembed Hhead Hsearch.
    unfold QdrantProvider.retrieveContext.
    rewrite (bind_done _ _ _ _ _ (embeddings_embed_ok env _ _ _ _ Hembed)).
    rewrite Hhead. eexists.
    erewrite try_catch_raised.
    2: { erewrite bind_raised; [reflexivity |].
         unfold search. apply call_store_throws. exact Hsearch. }
    reflexivity.
Qed.

(** Along pages that all announce a next page the loop keeps going. *)
Lemma scroll_loop_prefix (filter : gmap string JsVal) :
  forall (offset : option PointId) (s : Store)
         (steps : list (option PointId * ScrollResponse))
         (offset' : option PointId) (s' : Store),
    ScrollPrefix env (collectionName config)
      (mkFilter (QdrantProvider.conditions filter)) offset s steps
      offset' s' ->
    forall (fuel : nat) (allPoints : list StoredPoint) (w : World Store Emb),
      store w = s ->
      QdrantProvider.scroll_loop env config (length steps + fuel) filter
        allPoints offset w
      = QdrantProvider.scroll_loop env config fuel filter
          (allPoints ++ concat (map (fun st => points (snd st)) steps))
          offset'
          (mkWorld s' (embedder w) (uuid_count w)
             (calls w ++
              map (fun st => CallScroll (collectionName config)
                               (page_request filter (fst st))) steps)).
Proof.
  intros offset s steps offset' s' Hrun.
  induction Hrun as [offset s
                    | offset offset' s s1 s' page rest Hscroll Hgo Hrun IH];
    intros fuel allPoints w Hs.
  - simpl. rewrite !app_nil_r. subst s. destruct w; reflexivity.
  - simpl. erewrite bind_done.
    2: { unfold scroll. apply call_store_ok. rewrite Hs. exact Hscroll. }
    rewrite Hgo, push_page. rewrite IH by reflexivity.
    cbn [store embedder uuid_count calls].
    rewrite <- !app_assoc. reflexivity.
Qed.

(** X9. A scan that fails on a later page returns nothing of the pages it
    already received: after any number of pages that announced a next one,
    an error of the store on the following request is raised wrapped as
    "Qdrant scroll failed: ...". *)
Theorem getDocumentsByMetadata_error_drops_pages
    (filter : gmap string JsVal) (w : World Store Emb)
    (steps : list (option PointId * ScrollResponse))
    (offset : option PointId) (s1 s2 : Store) (error : Thrown) :
  ScrollPrefix env (collectionName config)
    (mkFilter (QdrantProvider.conditions filter)) None (store w) steps
    offset s1 ->
  client_scroll env (collectionName config)
    (mkScroll (mkFilter (QdrantProvider.conditions filter)) 250 offset
       true true) s1
  = (inl error, s2) ->
  forall fuel : nat, (length steps < fuel)%nat ->
    QdrantProvider.getDocumentsByMetadata env config fuel filter w
    = (Raised (ErrorObj (String.append "Qdrant scroll failed: "
                           (describe error))),
       mkWorld s2 (embedder w) (uuid_count w)
         (calls w ++
          map (fun st =>
                 CallScroll (collectionName config)
                   (mkScroll (mkFilter (QdrantProvider.conditions filter))
                      250 (fst st) true true))
              steps ++
          [CallScroll (collectionName config)
             (mkScroll (mkFilter (QdrantProvider.conditions filter))
                250 offset true true)])).
Proof.
  intros Hprefix Hthrow fuel Hfuel.
  replace fuel with (length steps + S (fuel - S (length steps)))%nat by lia.
  unfold QdrantProvider.getDocumentsByMetadata.
  erewrite try_catch_raised.
  2: { erewrite bind_raised; [reflexivity |].
       rewrite (scroll_loop_prefix filter _ _ _ _ _ Hprefix _ [] w eq_refl).
       simpl. erewrite bind_raised; [reflexivity |].
       unfold scroll. apply call_store_throws. exact Hthrow. }
  unfold throw, wrap. cbn [store embedder uuid_count calls].
  rewrite <- app_assoc. reflexivity.
Qed.

(** X10. Against a store whose every page announces a next page the scan
    never ends: whatever the fuel, it is spent with the loop still
    running. *)
Theorem getDocumentsByMetadata_endless_cursor
    (filter : gmap string JsVal) :
  (forall (request : ScrollRequest) (s : Store),
     exists (page : ScrollResponse) (s' : Store),
       client_scroll env (collectionName config) request s = (inr page, s')
       /\ truthy_cursor (next_page_offset page) = true) ->
  forall (fuel : nat) (w : World Store Emb),
    fst (QdrantProvider.getDocumentsByMetadata env config fuel filter w)
    = Stalled.
Proof.
  intros Hendless fuel w.
  assert (Hloop : forall (fuel : nat) (allPoints : list StoredPoint)
                         (offset : option PointId) (w : World Store Emb),
    fst (QdrantProvider.scroll_loop env config fuel filter allPoints offset w)
    = Stalled).
  { clear fuel w. induction fuel as [| fuel IH]; intros allPoints offset w;
      [reflexivity |].
    simpl.
    destruct (Hendless
                (mkScroll (mkFilter (QdrantProvider.conditions filter))
                   QdrantProvider.page_size offset true true) (store w))
      as (page & s' & Hscroll & Hgo).
    erewrite bind_done.
    2: { unfold scroll. apply call_store_ok. exact Hscroll. }
    rewrite Hgo. apply IH. }
  unfold QdrantProvider.getDocumentsByMetadata, try_catch, mbind, M_bind, bind.
  specialize (Hloop fuel [] None w).
  destruct (QdrantProvider.scroll_loop env config fuel filter [] None w)
    as [[a | e |] w']; simpl in Hloop; first [discriminate | reflexivity].
Qed.

End FailureFacts.


Lemma retrieveContext_failures_witness :
  QdrantProvider.retrieveContext Mock.env Mock.qdrant "Tell me about UBC"
    (mkOptions None None None)
    (Mock.world Mock.empty_store ["Tell me about UBC"])
  = (Raised (ErrorObj "Failed to generate embedding for the query text."),
     mkWorld Mock.empty_store ["Tell me about UBC"] 0
       [CallEmbed ["Tell me about UBC"]])
  /\ exists w' : World Mock.Store Mock.Emb,
       QdrantProvider.retrieveContext MockFaults.env_store_down Mock.qdrant
         "Tell me about UBC" (mkOptions None None None)
         (Mock.world Mock.empty_store [])
       = (Raised (ErrorObj
            "Qdrant search failed: connect ECONNREFUSED 127.0.0.1:6333"),
          w').
Proof.
  split.
  - apply (proj1 (proj2 (retrieveContext_failures Mock.env Mock.qdrant
                           "Tell me about UBC" (mkOptions None None None)
                           (Mock.world Mock.empty_store
                              ["Tell me about UBC"])))
             [None] ["Tell me about UBC"]).
    + reflexivity.
    + right. reflexivity.
  - apply (proj2 (proj2 (retrieveContext_failures MockFaults.env_store_down
                           Mock.qdrant "Tell me about UBC"
                           (mkOptions None None None)
                           (Mock.world Mock.empty_store [])))
             [Some [1%float]] [] [1%float] MockFaults.down Mock.empty_store);
      reflexivity.
Defined.

Lemma getDocumentsByMetadata_error_drops_pages_witness :
  let filter : gmap string JsVal := {["source" := JStr "b.txt"]} in
  let page := mkPage [mkStored (IdNum 1) None None] (Some (IdNum 7)) in
  let s := Mock.mkStore true [] [page] [] in
  exists w' : World Mock.Store Mock.Emb,
    QdrantProvider.getDocumentsByMetadata MockFaults.env_scroll_breaks
      Mock.qdrant 5 filter (Mock.world s [])
    = (Raised (ErrorObj
         "Qdrant scroll failed: connect ECONNREFUSED 127.0.0.1:6333"),
       w').
Proof.
  intros filter page s. eexists.
  apply (getDocumentsByMetadata_error_drops_pages
           MockFaults.env_scroll_breaks Mock.qdrant filter (Mock.world s [])
           [(None, page)] (Some (IdNum 7)) (Mock.mkStore true [] [] [])
           (Mock.mkStore true [] [] []) MockFaults.down).
  - eapply prefix_cons; [reflexivity | reflexivity | apply prefix_nil].
  - reflexivity.
  - simpl. lia.
Defined.

Lemma getDocumentsByMetadata_endless_cursor_witness :
  fst (QdrantProvider.getDocumentsByMetadata MockFaults.env_scroll_endless
         Mock.qdrant 1000 {["source" := JStr "b.txt"]}
         (Mock.world Mock.empty_store []))
  = Stalled.
Proof.
  apply (getDocumentsByMetadata_endless_cursor MockFaults.env_scroll_endless
           Mock.qdrant {["source" := JStr "b.txt"]}).
  intros request s. exists (mkPage [] (Some (IdNum 1))), s.
  split; reflexivity.
Defined.

Section RoundTripFacts.

(** X11. What is ingested comes back: the payload [addDocument] builds
    for chunk [i] is read by [retrieveContext] as the text of the chunk,
    with the caller's metadata and [chunkIndex = i] as metadata, and by
    [getDocumentsByMetadata] as that text. A field named ['content'] or
    ['chunkIndex'] in the caller's metadata does not come back: the first
    is replaced by the text and then removed, the second is replaced by the
    index. *)
Theorem ingested_payload_round_trip (metadata : gmap string JsVal)
    (chunk : string) (i : nat) (id : PointId) (score : float)
    (vector : option Vector) :
  let payload := QdrantProvider.chunk_payload metadata chunk i in
  QdrantProvider.toRetrievedChunk (mkHit id score (Some payload))
  = mkChunk (JStr chunk) score
      (Some (<["chunkIndex" := JNum (Z.of_nat i)]>
               (delete "content" metadata)))
  /\ found_content
       (QdrantProvider.toFoundDocument (mkStored id (Some payload) vector))
     = Some (JStr chunk)
  /\ (<["chunkIndex" := JNum (Z.of_nat i)]> (delete "content" metadata)
        : gmap string JsVal) !! "content" = None
  /\ (<["chunkIndex" := JNum (Z.of_nat i)]> (delete "content" metadata)
        : gmap string JsVal) !! "chunkIndex" = Some (JNum (Z.of_nat i))
  /\ forall key : string, key <> "content" -> key <> "chunkIndex" ->
       (<["chunkIndex" := JNum (Z.of_nat i)]> (delete "content" metadata)
          : gmap string JsVal) !! key = metadata !! key.
Proof.
  cbv zeta. unfold QdrantProvider.chunk_payload.
  assert (Hc : (<["chunkIndex" := JNum (Z.of_nat i)]>
                  (<["content" := JStr chunk]> metadata)
                  : gmap string JsVal) !! "content" = Some (JStr chunk)).
  { rewrite lookup_insert_ne by discriminate. apply lookup_insert_eq. }
  assert (Hd : delete "content"
                 (<["chunkIndex" := JNum (Z.of_nat i)]>
                    (<["content" := JStr chunk]> metadata))
               = (<["chunkIndex" := JNum (Z.of_nat i)]>
                    (delete "content" metadata) : gmap string JsVal)).
  { rewrite delete_insert_ne by discriminate.
    rewrite delete_insert_eq. reflexivity. }
  split; [| split; [| split; [| split]]].
  - unfold QdrantProvider.toRetrievedChunk. simpl. rewrite Hc, Hd.
    destruct (0 <? length (map_to_list
                (<["chunkIndex" := JNum (Z.of_nat i)]>
                   (delete "content" metadata))))%nat eqn:E; [reflexivity |].
    apply has_keys_iff in E.
    apply (f_equal (fun m : gmap string JsVal => m !! "chunkIndex")) in E.
    rewrite lookup_insert_eq, lookup_empty in E. discriminate.
  - unfold QdrantProvider.toFoundDocument. simpl. exact Hc.
  - rewrite lookup_insert_ne by discriminate. apply lookup_delete_eq.
  - apply lookup_insert_eq.
  - intros key H1 H2. rewrite lookup_insert_ne by congruence.
    apply lookup_delete_ne. congruence.
Qed.

End RoundTripFacts.

(* ===================================================================== *)
(** * Properties of the construction of a module *)
(* ===================================================================== *)

Section ValidationFacts.

Import RAGModuleSetup.

(** The configuration [validateAndBuildConfig] returns for [config]. *)
Lemma validateAndBuildConfig_inv (config validated : RAGConfigInput) :
  validateAndBuildConfig config = inr validated ->
  falsy_string (in_provider config) = false
  /\ (exists embeddingsConfig : gmap string JsVal,
        in_embeddingsConfig config = Some embeddingsConfig)
  /\ validated
     = mkRAGInput (in_provider config) (in_qdrantConfig config)
         (in_embeddingsConfig config) (in_chunkingConfig config)
         (Some (default false (in_debug config)))
         (Some (default 5 (in_defaultRetrievalLimit config)))
         (in_defaultScoreThreshold config)
  /\ (is_qdrant (in_provider config) = true ->
      exists (q : QdrantConfigInput) (name : string) (size : Z)
             (metric : QdrantDistanceMetric),
        in_qdrantConfig config = Some q
        /\ in_collectionName q = Some name /\ name <> ""
        /\ in_vectorSize q = Some size
        /\ in_distanceMetric q = Some metric).
Proof.
  unfold validateAndBuildConfig. intros H.
  destruct (falsy_string (in_provider config)) eqn:Hp; [discriminate |].
  split; [reflexivity |].
  destruct (is_qdrant (in_provider config)) eqn:Hq.
  - destruct (in_qdrantConfig config) as [q |] eqn:Hqc; [| discriminate].
    destruct (falsy_string (in_collectionName q)) eqn:Hn; [discriminate |].
    destruct (in_vectorSize q) as [size |] eqn:Hs; [| discriminate].
    destruct (in_distanceMetric q) as [metric |] eqn:Hm; [| discriminate].
    destruct (in_embeddingsConfig config) as [ec |] eqn:He; [| discriminate].
    injection H as <-.
    split; [eauto |]. split; [reflexivity |]. intros _.
    destruct (in_collectionName q) as [name |] eqn:Hname; [| discriminate].
    exists q, name, size, metric. repeat split; try assumption.
    intros ->. discriminate.
  - destruct (in_embeddingsConfig config) as [ec |] eqn:He; [| discriminate].
    injection H as <-.
    split; [eauto |]. split; [reflexivity |]. discriminate.
Qed.

(** X12. [validateAndBuildConfig] accepts a configuration exactly when
    the provider is a non-empty string, [embeddingsConfig] is there, and,
    for the provider ['qdrant'], [qdrantConfig] is there with a non-empty
    [collectionName], a [vectorSize] and a [distanceMetric]. Any other
    non-empty provider name passes with [embeddingsConfig] alone. *)
Theorem validateAndBuildConfig_accepts_iff (config : RAGConfigInput) :
  (exists validated : RAGConfigInput,
     validateAndBuildConfig config = inr validated)
  <->
  (exists provider : string,
     in_provider config = Some provider /\ provider <> "")
  /\ (exists embeddingsConfig : gmap string JsVal,
        in_embeddingsConfig config = Some embeddingsConfig)
  /\ (in_provider config = Some "qdrant" ->
      exists (q : QdrantConfigInput) (name : string) (size : Z)
             (metric : QdrantDistanceMetric),
        in_qdrantConfig config = Some q
        /\ in_collectionName q = Some name /\ name <> ""
        /\ in_vectorSize q = Some size
        /\ in_distanceMetric q = Some metric).
Proof.
  split.
  - intros [validated H].
    destruct (validateAndBuildConfig_inv config validated H)
      as (Hp & He & _ & Hq).
    split; [| split; [exact He |]].
    + destruct (in_provider config) as [p |]; [| discriminate].
      exists p. split; [reflexivity |]. intros ->. discriminate.
    + intros Hprov. apply Hq. rewrite Hprov. reflexivity.
  - intros ((p & Hp & Hne) & (ec & He) & Hq).
    unfold validateAndBuildConfig. rewrite Hp. simpl.
    destruct (String.eqb_spec p ""); [contradiction |].
    destruct (String.eqb_spec p "qdrant") as [-> | Hnq].
    + destruct (Hq Hp) as (q & name & size & metric & Hqc & Hn & Hnn & Hs & Hm).
      rewrite Hqc, Hn, Hs, Hm, He. simpl.
      destruct (String.eqb_spec name ""); [contradiction |]. eauto.
    + rewrite He. eauto.
Qed.

(** X13. An accepted configuration comes back with every field it had,
    [debug] set ([false] when absent) and [defaultRetrievalLimit] set (5
    when absent; a given limit, even 0, is kept); [defaultScoreThreshold]
    gets no default. Validating the result again changes nothing. *)
Theorem validateAndBuildConfig_defaults_idempotent
    (config validated : RAGConfigInput) :
  validateAndBuildConfig config = inr validated ->
  in_provider validated = in_provider config
  /\ in_qdrantConfig validated = in_qdrantConfig config
  /\ in_embeddingsConfig validated = in_embeddingsConfig config
  /\ in_chunkingConfig validated = in_chunkingConfig config
  /\ in_defaultScoreThreshold validated = in_defaultScoreThreshold config
  /\ in_debug validated = Some (default false (in_debug config))
  /\ in_defaultRetrievalLimit validated
     = Some (default 5 (in_defaultRetrievalLimit config))
  /\ validateAndBuildConfig validated = inr validated.
Proof.
  intros H.
  destruct (validateAndBuildConfig_inv config validated H)
    as (Hp & (ec & He) & -> & Hq).
  simpl. repeat (split; [reflexivity |]).
  unfold validateAndBuildConfig. simpl. rewrite Hp.
  destruct (is_qdrant (in_provider config)) eqn:Hisq.
  - destruct (Hq eq_refl) as (q & name & size & metric & Hqc & Hn & Hnn & Hs & Hm).
    rewrite Hqc, Hn, Hs, Hm, He. simpl.
    destruct (String.eqb_spec name ""); [contradiction | reflexivity].
  - rewrite He. reflexivity.
Qed.

End ValidationFacts.

Lemma validateAndBuildConfig_accepts_iff_witness :
  exists validated : RAGModuleSetup.RAGConfigInput,
    RAGModuleSetup.validateAndBuildConfig MockInit.input = inr validated.
Proof.
  apply (proj2 (validateAndBuildConfig_accepts_iff MockInit.input)).
  split; [| split].
  - exists "qdrant". split; [reflexivity | discriminate].
  - eexists. reflexivity.
  - intros _. exists MockInit.qdrant_input, "docs", 4, Cosine.
    repeat split. discriminate.
Defined.

Lemma validateAndBuildConfig_defaults_idempotent_witness :
  let validated :=
    RAGModuleSetup.mkRAGInput (Some "qdrant") (Some MockInit.qdrant_input)
      (Some {["providerType" := JStr "fastembed"]}) None (Some false)
      (Some 5) None in
  RAGModuleSetup.validateAndBuildConfig MockInit.input = inr validated
  /\ RAGModuleSetup.validateAndBuildConfig validated = inr validated.
Proof.
  intros validated.
  assert (H : RAGModuleSetup.validateAndBuildConfig MockInit.input
              = inr validated) by reflexivity.
  split; [exact H |].
  apply (validateAndBuildConfig_defaults_idempotent MockInit.input validated
           H).
Defined.

Section SetupFacts.

Import RAGModuleSetup.

Context {Store Emb : Type}.
Variable ienv : InitEnv Store Emb.

Lemma init_store_ok {A} (f : Store -> (Thrown + A) * Store)
    (w : World Store Emb) (a : A) (s' : Store) :
  f (store w) = (inr a, s') ->
  init_store (Emb := Emb) f w
  = (Done a, mkWorld s' (embedder w) (uuid_count w) (calls w)).
Proof. intros H. unfold init_store. rewrite H. reflexivity. Qed.

Lemma init_store_throws {A} (f : Store -> (Thrown + A) * Store)
    (w : World Store Emb) (e : Thrown) (s' : Store) :
  f (store w) = (inl e, s') ->
  init_store (Emb := Emb) f w
  = (Raised e, mkWorld s' (embedder w) (uuid_count w) (calls w)).
Proof. intros H. unfold init_store. rewrite H. reflexivity. Qed.

Lemma collection_listed (name : string) (names : list string) :
  existsb (fun n => String.eqb n name) names = true <-> In name names.
Proof.
  rewrite existsb_exists. split.
  - intros (n & Hin & Heq). apply String.eqb_eq in Heq. subst. exact Hin.
  - intros Hin. exists name. split; [exact Hin | apply String.eqb_refl].
Qed.

(** The run of the provider's [initialize], by the answers of the store. *)
Lemma provider_initialize_run (config : QdrantConfig) (w : World Store Emb)
    (names : list string) (s1 : Store) :
  client_getCollections ienv (store w) = (inr names, s1) ->
  QdrantProviderSetup.initialize ienv config w
  = if existsb (fun n => String.eqb n (collectionName config)) names
    then (Done tt, mkWorld s1 (embedder w) (uuid_count w) (calls w))
    else
      let '(answer, s2) :=
        client_createCollection ienv (collectionName config)
          (vectorSize config) (distanceMetric config) s1 in
      (match answer with
       | inr _ => Done tt
       | inl error => Raised (wrap "Qdrant initialization failed: " error)
       end,
       mkWorld s2 (embedder w) (uuid_count w) (calls w)).
Proof.
  intros H. unfold QdrantProviderSetup.initialize.
  unfold try_catch at 1.
  rewrite (bind_done _ _ _ _ _ (init_store_ok _ _ _ _ H)).
  destruct (existsb _ names); [reflexivity |]. simpl.
  unfold mbind, M_bind, bind, init_store. simpl.
  destruct (client_createCollection ienv _ _ _ s1) as [[error | b] s2];
    reflexivity.
Qed.

(** The three cases of the provider's [initialize]. *)
Lemma provider_initialize_cases
    (config : QdrantConfig) (w : World Store Emb) :
  (forall (error : Thrown) (s1 : Store),
     client_getCollections ienv (store w) = (inl error, s1) ->
     QdrantProviderSetup.initialize ienv config w
     = (Raised (ErrorObj (String.append "Qdrant initialization failed: "
                            (describe error))),
        mkWorld s1 (embedder w) (uuid_count w) (calls w)))
  /\ (forall (names : list string) (s1 : Store),
        client_getCollections ienv (store w) = (inr names, s1) ->
        In (collectionName config) names ->
        QdrantProviderSetup.initialize ienv config w
        = (Done tt, mkWorld s1 (embedder w) (uuid_count w) (calls w)))
  /\ (forall (names : list string) (s1 s2 : Store) (answer : Thrown + bool),
        client_getCollections ienv (store w) = (inr names, s1) ->
        ~ In (collectionName config) names ->
        client_createCollection ienv (collectionName config)
          (vectorSize config) (distanceMetric config) s1 = (answer, s2) ->
        QdrantProviderSetup.initialize ienv config w
        = (match answer with
           | inr _ => Done tt
           | inl error =>
               Raised (ErrorObj (String.append
                         "Qdrant initialization failed: " (describe error)))
           end,
           mkWorld s2 (embedder w) (uuid_count w) (calls w))).
Proof.
  split; [| split].
  - intros error s1 H. unfold QdrantProviderSetup.initialize.
    erewrite try_catch_raised; [reflexivity |].
    erewrite bind_raised; [reflexivity |].
    apply init_store_throws. exact H.
  - intros names s1 H Hin. rewrite (provider_initialize_run config w names s1 H).
    apply collection_listed in Hin. rewrite Hin. reflexivity.
  - intros names s1 s2 answer H Hnot Hcreate.
    rewrite (provider_initialize_run config w names s1 H).
    destruct (existsb _ names) eqn:E.
    + apply collection_listed in E. contradiction.
    + rewrite Hcreate. reflexivity.
Qed.


(** X14. The provider's [initialize] lists the collections and creates
    the configured one, with the configured vector size and distance, only
    when it is not listed; a listed collection is taken as it is. An error
    of either call is raised wrapped as "Qdrant initialization failed:
    ...". *)
Theorem provider_initialize_creates_only_when_absent
    (config : QdrantConfig) (w : World Store Emb) :
  (forall (error : Thrown) (s1 : Store),
     client_getCollections ienv (store w) = (inl error, s1) ->
     QdrantProviderSetup.initialize ienv config w
     = (Raised (ErrorObj (String.append "Qdrant initialization failed: "
                            (describe error))),
        mkWorld s1 (embedder w) (uuid_count w) (calls w)))
  /\ (forall (names : list string) (s1 : Store),
        client_getCollections ienv (store w) = (inr names, s1) ->
        In (collectionName config) names ->
        QdrantProviderSetup.initialize ienv config w
        = (Done tt, mkWorld s1 (embedder w) (uuid_count w) (calls w)))
  /\ (forall (names : list string) (s1 s2 : Store) (answer : Thrown + bool),
        client_getCollections ienv (store w) = (inr names, s1) ->
        ~ In (collectionName config) names ->
        client_createCollection ienv (collectionName config)
          (vectorSize config) (distanceMetric config) s1 = (answer, s2) ->
        QdrantProviderSetup.initialize ienv config w
        = (match answer with
           | inr _ => Done tt
           | inl error =>
               Raised (ErrorObj (String.append
                         "Qdrant initialization failed: " (describe error)))
           end,
           mkWorld s2 (embedder w) (uuid_count w) (calls w))).
Proof.
  split; [| split].
  - intros error s1 H. unfold QdrantProviderSetup.initialize.
    erewrite try_catch_raised; [reflexivity |].
    erewrite bind_raised; [reflexivity |].
    apply init_store_throws. exact H.
  - intros names s1 H Hin. rewrite (provider_initialize_run config w names s1 H).
    apply collection_listed in Hin. rewrite Hin. reflexivity.
  - intros names s1 s2 answer H Hnot Hcreate.
    rewrite (provider_initialize_run config w names s1 H).
    destruct (existsb _ names) eqn:E.
    + apply collection_listed in E. contradiction.
    + rewrite Hcreate. reflexivity.
Qed.

End SetupFacts.

Section CreateFacts.

Import RAGModuleSetup.

Context {Store Emb : Type}.
Variable ienv : InitEnv Store Emb.

Lemma init_embedder_run {A} (f : Emb -> (Thrown + A) * Emb)
    (w : World Store Emb) :
  init_embedder (Store := Store) f w
  = (match fst (f (embedder w)) with
     | inl e => Raised e
     | inr a => Done a
     end,
     mkWorld (store w) (snd (f (embedder w))) (uuid_count w) (calls w)).
Proof.
  unfold init_embedder. destruct (f (embedder w)) as [[e | a] e']; reflexivity.
Qed.

(** The run of [initialize] for the provider ['qdrant']. *)
Lemma initialize_qdrant_run (config : RAGConfigInput)
    (embeddingsConfig : gmap string JsVal) (qdrant : QdrantConfig)
    (w : World Store Emb) :
  is_qdrant (in_provider config) = true ->
  in_embeddingsConfig config = Some embeddingsConfig ->
  in_qdrantConfig config ≫= provider_config = Some qdrant ->
  let created :=
    embeddings_create ienv embeddingsConfig (default false (in_debug config))
      (embedder w) in
  let w1 := mkWorld (store w) (snd created) (uuid_count w) (calls w) in
  initialize ienv config w
  = match fst created with
    | inl cause =>
        (Raised (wrap "RAGModule initialization failed: " cause), w1)
    | inr _ =>
        match QdrantProviderSetup.initialize ienv qdrant w1 with
        | (Done _, w2) =>
            (Done (RAGModule.mkModule
                     (mkRAGConfig qdrant (default false (in_debug config))
                        (in_defaultRetrievalLimit config)
                        (in_defaultScoreThreshold config))
                     true),
             w2)
        | (Raised cause, w2) =>
            (Raised (wrap "RAGModule initialization failed: " cause), w2)
        | (Stalled, w2) => (Stalled, w2)
        end
    end.
Proof.
  intros Hq He Hqc created w1. unfold initialize. rewrite He, Hq, Hqc.
  unfold try_catch at 1. unfold mbind, M_bind, bind.
  rewrite init_embedder_run. fold created. fold w1.
  destruct (fst created) as [cause | []]; [reflexivity |].
  destruct (QdrantProviderSetup.initialize ienv qdrant w1) as [[[] | cause |] w2];
    reflexivity.
Qed.

(** X15. [create] fails in two ways only. A configuration the validation
    rejects makes it raise the validation error as it is, before any call
    of a collaborator: the world is unchanged. Every error after that is
    raised wrapped as "RAGModule initialization failed: ...". *)
Theorem create_error_kinds (config : RAGConfigInput)
    (w w' : World Store Emb) (error : Thrown) :
  create ienv config w = (Raised error, w') ->
  (validateAndBuildConfig config = inl error /\ w' = w)
  \/ (exists (validated : RAGConfigInput) (cause : Thrown),
        validateAndBuildConfig config = inr validated
        /\ error = ErrorObj (String.append "RAGModule initialization failed: "
                               (describe cause))).
Proof.
  unfold create. destruct (validateAndBuildConfig config) as [e | validated].
  - intros H. injection H as <- <-. left. split; reflexivity.
  - intros H. right. exists validated.
    unfold initialize, try_catch in H.
    match type of H with
    | (match ?body w with _ => _ end) = _ =>
        destruct (body w) as [[this | cause |] w2]
    end; try discriminate.
    exists cause. split; [reflexivity |].
    unfold throw in H. injection H as <- _. reflexivity.
Qed.

(** X16. [create] on a valid configuration of the provider ['qdrant'],
    when the embeddings module is created and the collections are listed:
    if the configured collection is listed the module is ready at once; if
    not, it is created with the configured size and distance and the
    module is ready; an error of that creation is raised wrapped twice,
    by the provider and by the module. The module returned holds the
    configured provider fields and the defaults of the validation. *)
Theorem create_ready_with_collection (config : RAGConfigInput)
    (q : QdrantConfigInput) (name : string) (size : Z)
    (metric : QdrantDistanceMetric) (embeddingsConfig : gmap string JsVal)
    (w : World Store Emb) (e1 : Emb) (names : list string) (s1 : Store) :
  in_provider config = Some "qdrant" ->
  in_qdrantConfig config = Some q ->
  in_collectionName q = Some name -> name <> "" ->
  in_vectorSize q = Some size ->
  in_distanceMetric q = Some metric ->
  in_embeddingsConfig config = Some embeddingsConfig ->
  embeddings_create ienv embeddingsConfig (default false (in_debug config))
    (embedder w) = (inr tt, e1) ->
  client_getCollections ienv (store w) = (inr names, s1) ->
  (In name names ->
   create ienv config w
   = (Done (ready_module q name size metric config),
      mkWorld s1 e1 (uuid_count w) (calls w)))
  /\ (~ In name names ->
      forall (b : bool) (s2 : Store),
        client_createCollection ienv name size metric s1 = (inr b, s2) ->
        create ienv config w
        = (Done (ready_module q name size metric config),
           mkWorld s2 e1 (uuid_count w) (calls w)))
  /\ (~ In name names ->
      forall (cause : Thrown) (s2 : Store),
        client_createCollection ienv name size metric s1 = (inl cause, s2) ->
        create ienv config w
        = (Raised (ErrorObj (String.append
             "RAGModule initialization failed: "
             (String.append "Qdrant initialization failed: "
                (describe cause)))),
           mkWorld s2 e1 (uuid_count w) (calls w))).
Proof.
  intros Hp Hqc Hn Hnn Hs Hm He Hcreate Hlist.
  assert (Hvalid : validateAndBuildConfig config
                   = inr (mkRAGInput (in_provider config)
                            (in_qdrantConfig config)
                            (in_embeddingsConfig config)
                            (in_chunkingConfig config)
                            (Some (default false (in_debug config)))
                            (Some (default 5 (in_defaultRetrievalLimit config)))
                            (in_defaultScoreThreshold config))).
  { unfold validateAndBuildConfig. rewrite Hp, Hqc, Hn, Hs, Hm, He. simpl.
    destruct (String.eqb_spec name ""); [contradiction | reflexivity]. }
  set (qdrant := mkQdrantConfig (in_url q) (in_apiKey q) name size metric).
  assert (Hrun : create ienv config w
                 = match QdrantProviderSetup.initialize ienv qdrant
                         (mkWorld (store w) e1 (uuid_count w) (calls w)) with
                   | (Done _, w2) =>
                       (Done (ready_module q name size metric config), w2)
                   | (Raised cause, w2) =>
                       (Raised (wrap "RAGModule initialization failed: " cause),
                        w2)
                   | (Stalled, w2) => (Stalled, w2)
                   end).
  { unfold create. rewrite Hvalid.
    rewrite (initialize_qdrant_run _ embeddingsConfig qdrant).
    - cbv zeta. simpl. rewrite Hcreate. reflexivity.
    - simpl. rewrite Hp. reflexivity.
    - simpl. exact He.
    - simpl. rewrite Hqc. simpl. unfold provider_config.
      rewrite Hn, Hs, Hm. reflexivity. }
  destruct (provider_initialize_cases ienv qdrant
              (mkWorld (store w) e1 (uuid_count w) (calls w)))
    as (_ & Hlisted & Hmissing).
  split; [| split].
  - intros Hin. rewrite Hrun, (Hlisted names s1 Hlist Hin). reflexivity.
  - intros Hnot b s2 Hc.
    rewrite Hrun, (Hmissing names s1 s2 (inr b) Hlist Hnot Hc). reflexivity.
  - intros Hnot cause s2 Hc.
    rewrite Hrun, (Hmissing names s1 s2 (inl cause) Hlist Hnot Hc).
    reflexivity.
Qed.

(** X17. A provider name other than ['qdrant'] passes the validation and
    is rejected only by [initialize], after the embeddings module has been
    created: [create] then raises "RAGModule initialization failed:
    Unsupported RAG provider: <name>", whatever [qdrantConfig] holds. *)
Theorem create_unsupported_provider (config : RAGConfigInput)
    (provider : string) (embeddingsConfig : gmap string JsVal)
    (w : World Store Emb) (e1 : Emb) :
  in_provider config = Some provider ->
  provider <> "" -> provider <> "qdrant" ->
  in_embeddingsConfig config = Some embeddingsConfig ->
  embeddings_create ienv embeddingsConfig (default false (in_debug config))
    (embedder w) = (inr tt, e1) ->
  create ienv config w
  = (Raised (ErrorObj (String.append "RAGModule initialization failed: "
                         (String.append "Unsupported RAG provider: "
                            provider))),
     mkWorld (store w) e1 (uuid_count w) (calls w)).
Proof.
  intros Hp Hne Hnq He Hcreate.
  unfold create, validateAndBuildConfig. rewrite Hp. simpl.
  destruct (String.eqb_spec provider ""); [contradiction |].
  destruct (String.eqb_spec provider "qdrant"); [contradiction |].
  rewrite He. unfold initialize. simpl. rewrite ?He, ?Hp. simpl.
  destruct (String.eqb_spec provider "qdrant"); [contradiction |].
  unfold try_catch, mbind, M_bind, bind. rewrite init_embedder_run.
  rewrite Hcreate. reflexivity.
Qed.

(** X18. [chunkingConfig] has no effect: two configurations that differ
    only in it make [create] run identically and return the same module,
    and [addDocument] of the provider cuts every content with the built-in
    chunker and its default window of 300 with an overlap of 50. *)
Theorem create_ignores_chunkingConfig
    (provider : option string) (qdrantConfig : option QdrantConfigInput)
    (embeddingsConfig : option (gmap string JsVal))
    (chunking1 chunking2 : option ChunkingChoice) (debug : option bool)
    (limit : option Z) (threshold : option float) (w : World Store Emb) :
  create ienv
    (mkRAGInput provider qdrantConfig embeddingsConfig chunking1 debug limit
       threshold) w
  = create ienv
      (mkRAGInput provider qdrantConfig embeddingsConfig chunking2 debug
         limit threshold) w
  /\ forall (env : Env Store Emb) (qdrant : QdrantConfig) (content : string)
            (metadata : option (gmap string JsVal)),
       exists chunks : list string,
         simpleChunker (chunker_fuel content) content 300 50 = Some chunks
         /\ QdrantProvider.addDocument env qdrant content metadata
            = QdrantProvider.addDocument_chunks env qdrant chunks
                (default ∅ metadata).
Proof.
  split.
  - unfold create, validateAndBuildConfig. simpl.
    destruct (falsy_string provider); [reflexivity |].
    destruct (is_qdrant provider) eqn:Hq.
    + destruct qdrantConfig as [q |]; [| reflexivity].
      destruct (falsy_string (in_collectionName q)); [reflexivity |].
      destruct (in_vectorSize q); [| reflexivity].
      destruct (in_distanceMetric q); [| reflexivity].
      destruct embeddingsConfig; reflexivity.
    + destruct embeddingsConfig; reflexivity.
  - intros env qdrant content metadata.
    destruct (simpleChunker_default_total content) as (chunks & Hrun & _).
    exists chunks. split; [exact Hrun |].
    apply addDocument_is_chunks. exact Hrun.
Qed.


End CreateFacts.

Lemma provider_initialize_creates_only_when_absent_witness :
  QdrantProviderSetup.initialize MockInit.ienv Mock.qdrant
    (Mock.world MockInit.absent_store [])
  = (Done tt, Mock.world Mock.empty_store [])
  /\ QdrantProviderSetup.initialize MockInit.ienv Mock.qdrant
       (Mock.world Mock.empty_store [])
     = (Done tt, Mock.world Mock.empty_store []).
Proof.
  split.
  - apply (proj2 (proj2 (provider_initialize_creates_only_when_absent
                           MockInit.ienv Mock.qdrant
                           (Mock.world MockInit.absent_store [])))
             ["other"] MockInit.absent_store Mock.empty_store (inr true)).
    + reflexivity.
    + simpl. intros [H | []]. discriminate H.
    + reflexivity.
  - apply (proj1 (proj2 (provider_initialize_creates_only_when_absent
                           MockInit.ienv Mock.qdrant
                           (Mock.world Mock.empty_store [])))
             ["other"; "docs"] Mock.empty_store).
    + reflexivity.
    + simpl. right. left. reflexivity.
Defined.

Lemma create_error_kinds_witness :
  let config :=
    RAGModuleSetup.mkRAGInput None (Some MockInit.qdrant_input) None None
      None None None in
  let w := Mock.world MockInit.absent_store [] in
  let error := ErrorObj "RAG provider type must be specified in config." in
  RAGModuleSetup.create MockInit.ienv config w = (Raised error, w)
  /\ ((RAGModuleSetup.validateAndBuildConfig config = inl error /\ w = w)
      \/ exists (validated : RAGModuleSetup.RAGConfigInput) (cause : Thrown),
           RAGModuleSetup.validateAndBuildConfig config = inr validated
           /\ error
              = ErrorObj (String.append "RAGModule initialization failed: "
                            (describe cause))).
Proof.
  intros config w error.
  assert (H : RAGModuleSetup.create MockInit.ienv config w = (Raised error, w))
    by reflexivity.
  split; [exact H |].
  apply (create_error_kinds MockInit.ienv config w w error H).
Defined.

Lemma create_ready_with_collection_witness :
  RAGModuleSetup.create MockInit.ienv MockInit.input
    (Mock.world MockInit.absent_store [])
  = (Done MockInit.ready, Mock.world Mock.empty_store [])
  /\ RAGModuleSetup.create MockInit.ienv MockInit.input
       (Mock.world Mock.empty_store [])
     = (Done MockInit.ready, Mock.world Mock.empty_store []).
Proof.
  split.
  - apply (proj1 (proj2 (create_ready_with_collection MockInit.ienv
                           MockInit.input MockInit.qdrant_input "docs" 4
                           Cosine {["providerType" := JStr "fastembed"]}
                           (Mock.world MockInit.absent_store []) []
                           ["other"] MockInit.absent_store
                           eq_refl eq_refl eq_refl ltac:(discriminate)
                           eq_refl eq_refl eq_refl eq_refl eq_refl))
             ltac:(simpl; intros [H | []]; discriminate H)
             true Mock.empty_store eq_refl).
  - apply (proj1 (create_ready_with_collection MockInit.ienv
                    MockInit.input MockInit.qdrant_input "docs" 4
                    Cosine {["providerType" := JStr "fastembed"]}
                    (Mock.world Mock.empty_store []) []
                    ["other"; "docs"] Mock.empty_store
                    eq_refl eq_refl eq_refl ltac:(discriminate)
                    eq_refl eq_refl eq_refl eq_refl eq_refl)).
    simpl. right. left. reflexivity.
Defined.

Lemma create_unsupported_provider_witness :
  RAGModuleSetup.create MockInit.ienv
    (RAGModuleSetup.mkRAGInput (Some "pinecone") None
       (Some {["providerType" := JStr "fastembed"]}) None None None None)
    (Mock.world MockInit.absent_store [])
  = (Raised (ErrorObj
       "RAGModule initialization failed: Unsupported RAG provider: pinecone"),
     Mock.world MockInit.absent_store []).
Proof.
  apply (create_unsupported_provider MockInit.ienv _ "pinecone"
           {["providerType" := JStr "fastembed"]}
           (Mock.world MockInit.absent_store []) []);
    first [reflexivity | discriminate].
Defined.


(* ===================================================================== *)
(** * Further properties of the facade and of the example application *)
(* ===================================================================== *)

Section FacadeUseFacts.

Context {Store Emb : Type}.
Variable env : Env Store Emb.

(** X20. On a ready module, [retrieveContext] searches with the limit and
    the score threshold of the call when they are given (a limit of 0
    included), else with the defaults of the configuration, else with the
    limit 5 and no threshold; it asks for payloads and not for vectors,
    and returns the mapped hits in the order of the store. *)
Theorem RAGModule_retrieveContext_merges_options
    (this : RAGModule.t) (queryText : string)
    (options : option RetrievalOptions) (w : World Store Emb)
    (embeddings : list (option Vector)) (e' : Emb) (queryVector : Vector)
    (hits : list ScoredPoint) (s' : Store) :
  RAGModule.isInitialized this = true ->
  embed env [queryText] (embedder w) = (inr embeddings, e') ->
  head embeddings = Some (Some queryVector) ->
  let limit :=
    match options ≫= opt_limit with
    | Some limit => limit
    | None =>
        match defaultRetrievalLimit (RAGModule.config this) with
        | Some limit => limit
        | None => 5
        end
    end in
  let scoreThreshold :=
    match options ≫= opt_scoreThreshold with
    | Some threshold => Some threshold
    | None => defaultScoreThreshold (RAGModule.config this)
    end in
  let request := mkSearch queryVector limit scoreThreshold None true false in
  let collection := collectionName (qdrantConfig (RAGModule.config this)) in
  client_search env collection request (store w) = (inr hits, s') ->
  RAGModule.retrieveContext env this queryText options w
  = (Done (map QdrantProvider.toRetrievedChunk hits),
     mkWorld s' e' (uuid_count w)
       (calls w ++ [CallEmbed [queryText]; CallSearch collection request])).
Proof.
  intros Hready Hembed Hhead limit scoreThreshold request collection Hsearch.
  unfold RAGModule.retrieveContext, RAGModule.ensureInitialized.
  rewrite Hready.
  erewrite bind_done; [| reflexivity].
  unfold QdrantProvider.retrieveContext.
  rewrite (bind_done _ _ _ _ _ (embeddings_embed_ok env _ _ _ _ Hembed)).
  rewrite Hhead.
  assert (Hreq : mkSearch queryVector
                   (default 5
                      (opt_limit
                         (mkOptions
                            (RAGModule.nullish (options ≫= opt_limit)
                               (defaultRetrievalLimit (RAGModule.config this)))
                            (RAGModule.nullish (options ≫= opt_scoreThreshold)
                               (defaultScoreThreshold
                                  (RAGModule.config this)))
                            (options ≫= opt_filter))))
                   (opt_scoreThreshold
                      (mkOptions
                         (RAGModule.nullish (options ≫= opt_limit)
                            (defaultRetrievalLimit (RAGModule.config this)))
                         (RAGModule.nullish (options ≫= opt_scoreThreshold)
                            (defaultScoreThreshold (RAGModule.config this)))
                         (options ≫= opt_filter)))
                   None true false
                 = request).
  { unfold request, limit, scoreThreshold, RAGModule.nullish. simpl.
    destruct (options ≫= opt_limit);
      destruct (options ≫= opt_scoreThreshold);
      destruct (defaultRetrievalLimit (RAGModule.config this));
      reflexivity. }
  rewrite Hreq.
  erewrite try_catch_done; [reflexivity |].
  erewrite bind_done.
  2: { unfold search. apply call_store_ok. exact Hsearch. }
  unfold mret, M_ret, ret. cbn [store embedder uuid_count calls].
  rewrite <- app_assoc. reflexivity.
Qed.

(** X21. A module that is not initialized answers every operation of its
    class with the error "RAGModule has not been initialized. Call
    RAGModule.create() first." and calls no collaborator. *)
Theorem RAGModule_not_initialized_raises (this : RAGModule.t)
    (r : RAGModule.Request) (w : World Store Emb) :
  RAGModule.isInitialized this = false ->
  In (RAGModule.member r) RAGModule.class_methods ->
  RAGModule.invoke env this r w
  = (Raised (ErrorObj
       "RAGModule has not been initialized. Call RAGModule.create() first."),
     w).
Proof.
  intros Hnot Hin.
  destruct r; simpl;
    unfold RAGModule.addDocument, RAGModule.retrieveContext,
      RAGModule.deleteDocumentsByIds, RAGModule.deleteDocumentsByMetadata,
      RAGModule.deleteStorage, RAGModule.ensureInitialized;
    rewrite ?Hnot; try reflexivity.
  simpl in Hin.
  repeat (destruct Hin as [Hin | Hin]; [discriminate Hin |]).
  destruct Hin.
Qed.

End FacadeUseFacts.

Lemma RAGModule_retrieveContext_merges_options_witness :
  let hits := [mkHit (IdNum 1) 0.75%float None] in
  let w := Mock.world (Mock.mkStore true [] [] hits) [] in
  RAGModule.retrieveContext Mock.env MockInit.ready "Tell me about UBC"
    (Some (mkOptions (Some 0) None None)) w
  = (Done [mkChunk (JStr "") 0.75%float None],
     mkWorld (Mock.mkStore true [] [] hits) [] 0
       [CallEmbed ["Tell me about UBC"];
        CallSearch "docs" (mkSearch [1%float] 0 None None true false)]).
Proof.
  intros hits w.
  apply (RAGModule_retrieveContext_merges_options Mock.env MockInit.ready
           "Tell me about UBC" (Some (mkOptions (Some 0) None None)) w
           [Some [1%float]] [] [1%float] hits (store w)
           eq_refl eq_refl eq_refl eq_refl).
Defined.

Lemma RAGModule_not_initialized_raises_witness :
  RAGModule.invoke Mock.env
    (RAGModule.mkModule (mkRAGConfig Mock.qdrant false (Some 5) None) false)
    RAGModule.DeleteStorage (Mock.world Mock.empty_store [])
  = (Raised (ErrorObj
       "RAGModule has not been initialized. Call RAGModule.create() first."),
     Mock.world Mock.empty_store []).
Proof.
  apply (RAGModule_not_initialized_raises Mock.env
           (RAGModule.mkModule (mkRAGConfig Mock.qdrant false (Some 5) None)
              false)
           RAGModule.DeleteStorage (Mock.world Mock.empty_store []) eq_refl).
  simpl. tauto.
Defined.

Section IndexingFacts.

Context {Store Emb : Type}.
Variable env : Env Store Emb.
Variable fs : RAGApp.FileSystem.
Variable rag : RAGModule.t.

(** [addDocument] has no loop that can run on: it returns or raises. *)
Lemma addDocument_chunks_returns_or_raises (config : QdrantConfig)
    (chunks : list string) (metadata : gmap string JsVal)
    (w : World Store Emb) :
  fst (QdrantProvider.addDocument_chunks env config chunks metadata w)
  <> Stalled.
Proof.
  destruct chunks as [| c chunks]; [discriminate |].
  destruct (embed env (c :: chunks) (embedder w)) as [[e | embeddings] e']
    eqn:Hembed.
  - unfold QdrantProvider.addDocument_chunks.
    change (length (c :: chunks) =? 0)%nat with false. cbv iota.
    rewrite (bind_raised _ _ _ _ _
               (embeddings_embed_throws env _ _ _ _ Hembed)).
    discriminate.
  - rewrite (addDocument_chunks_run env config (c :: chunks) metadata w
               embeddings e' ltac:(discriminate) Hembed).
    cbv zeta. destruct (length _ =? 0)%nat; [discriminate |].
    unfold try_catch, mbind, M_bind, bind, upsert, call_store, throw.
    cbn [store embedder uuid_count calls].
    destruct (client_upsert env _ _ (store w)) as [[e | []] s'];
      [| discriminate].
    unfold QdrantProvider.upsert_failed, throw.
    destruct (json_stringify env e); discriminate.
Qed.

Lemma RAGModule_addDocument_returns_or_raises (content : string)
    (metadata : option (gmap string JsVal)) (w : World Store Emb) :
  fst (RAGModule.addDocument env rag content metadata w) <> Stalled.
Proof.
  unfold RAGModule.addDocument, RAGModule.ensureInitialized.
  destruct (RAGModule.isInitialized rag).
  - erewrite bind_done; [| reflexivity].
    destruct (addDocument_runs_on_chunks env
                (qdrantConfig (RAGModule.config rag)) content metadata)
      as (chunks & _ & ->).
    apply addDocument_chunks_returns_or_raises.
  - discriminate.
Qed.

(** Whatever happens to a file, the loop goes on. *)
Lemma indexFile_returns (file : string) (w : World Store Emb) :
  exists w' : World Store Emb,
    RAGApp.indexFile env fs rag file w = (Done tt, w').
Proof.
  unfold RAGApp.indexFile, try_catch.
  destruct (RAGApp.readFileSync fs file) as [error | content].
  - eexists. reflexivity.
  - pose proof (RAGModule_addDocument_returns_or_raises content
                  (Some {["source" := JStr file]}) w) as Hno.
    unfold mbind, M_bind, bind.
    destruct (RAGModule.addDocument env rag content _ w) as [[ids | e |] w'];
      [eexists; reflexivity | eexists; reflexivity |].
    simpl in Hno. congruence.
Qed.

Lemma indexFiles_returns (files : list string) :
  forall w : World Store Emb,
    exists w' : World Store Emb,
      RAGApp.indexFiles env fs rag files w = (Done tt, w').
Proof.
  induction files as [| file rest IH]; intros w; simpl.
  - eexists. reflexivity.
  - destruct (indexFile_returns file w) as [w1 H1].
    rewrite (bind_done _ _ _ _ _ H1). apply IH.
Qed.

(** X22. [indexData] of the example application. Without the data
    directory it does nothing. When the listing fails it raises "Data
    indexing failed.". Otherwise it returns normally whatever happens to
    any single file: a file that cannot be read, or whose [addDocument]
    raises, is passed over and the next one is indexed. Only the names
    ending in ".md" are read, in the order of the listing. *)
Theorem indexData_passes_over_failing_files (w : World Store Emb) :
  (RAGApp.existsSync fs = false ->
   RAGApp.indexData env fs rag w = (Done tt, w))
  /\ (forall error : Thrown,
        RAGApp.existsSync fs = true ->
        RAGApp.readdirSync fs = inl error ->
        RAGApp.indexData env fs rag w
        = (Raised (ErrorObj "Data indexing failed."), w))
  /\ (forall names : list string,
        RAGApp.existsSync fs = true ->
        RAGApp.readdirSync fs = inr names ->
        (exists w' : World Store Emb,
           RAGApp.indexData env fs rag w = (Done tt, w'))
        /\ RAGApp.indexData env fs rag w
           = RAGApp.indexFiles env fs rag
               (List.filter (fun f => RAGApp.endsWith f ".md") names) w).
Proof.
  split; [| split].
  - intros H. unfold RAGApp.indexData. rewrite H. reflexivity.
  - intros error H Hdir. unfold RAGApp.indexData. rewrite H, Hdir.
    reflexivity.
  - intros names H Hdir.
    assert (Heq : RAGApp.indexData env fs rag w
                  = RAGApp.indexFiles env fs rag
                      (List.filter (fun f => RAGApp.endsWith f ".md") names)
                      w).
    { unfold RAGApp.indexData. rewrite H, Hdir. simpl.
      destruct (indexFiles_returns
                  (List.filter (fun f => RAGApp.endsWith f ".md") names) w)
        as [w' Hrun].
      destruct (List.filter _ names) as [| f files] eqn:E.
      - reflexivity.
      - change (length (f :: files) =? 0)%nat with false. cbv iota.
        unfold try_catch. rewrite Hrun. reflexivity. }
    split; [| exact Heq].
    rewrite Heq. apply indexFiles_returns.
Qed.

End IndexingFacts.

Lemma indexData_passes_over_failing_files_witness :
  exists w' : World Mock.Store Mock.Emb,
    RAGApp.indexData Mock.env MockInit.files MockInit.ready
      (Mock.world Mock.empty_store [])
    = (Done tt, w')
    /\ map (fun p => point_payload p !! "source") (Mock.stored (store w'))
       = [Some (JStr "a.md"); Some (JStr "b.md")].
Proof.
  destruct (proj2 (proj2 (indexData_passes_over_failing_files Mock.env
                            MockInit.files MockInit.ready
                            (Mock.world Mock.empty_store [])))
              ["a.md"; "notes.txt"; "broken.md"; "b.md"] eq_refl eq_refl)
    as [[w' Hrun] _].
  exists w'. split; [exact Hrun |].
  vm_compute in Hrun. injection Hrun as <-. vm_compute. reflexivity.
Defined.

Section FreshIdFacts.

Context {Store Emb : Type}.
Variable env : Env Store Emb.
Variable config : QdrantConfig.

(** The ids a run of [addDocument_chunks] returns are the values the
    generator produced during the run. *)
Lemma addDocument_chunks_ids (chunks : list string)
    (metadata : gmap string JsVal) (w w' : World Store Emb)
    (ids : list string) :
  QdrantProvider.addDocument_chunks env config chunks metadata w
  = (Done ids, w') ->
  ids = map (uuid env) (seq (uuid_count w) (uuid_count w' - uuid_count w))
  /\ (uuid_count w <= uuid_count w')%nat.
Proof.
  destruct chunks as [| c chunks].
  - intros H. injection H as <- <-. rewrite Nat.sub_diag. split; [reflexivity | lia].
  - destruct (embed env (c :: chunks) (embedder w)) as [[e | embeddings] e']
      eqn:Hembed.
    + unfold QdrantProvider.addDocument_chunks.
      change (length (c :: chunks) =? 0)%nat with false. cbv iota.
      rewrite (bind_raised _ _ _ _ _
                 (embeddings_embed_throws env _ _ _ _ Hembed)).
      discriminate.
    + rewrite (addDocument_chunks_run env config (c :: chunks) metadata w
                 embeddings e' ltac:(discriminate) Hembed).
      cbv zeta.
      destruct (built_points_spec (uuid env) embeddings metadata (c :: chunks)
                  0 (uuid_count w)) as (Hlen & Hids & _).
      set (B := built_points _ _ _ _ _ _) in *.
      destruct (length B =? 0)%nat eqn:E.
      * apply Nat.eqb_eq in E. intros H. injection H as <- <-. simpl.
        rewrite E, Nat.add_0_r, Nat.sub_diag. split; [reflexivity | lia].
      * unfold try_catch, mbind, M_bind, bind, upsert, call_store, throw,
          mret, M_ret, ret.
        cbn [store embedder uuid_count calls].
        destruct (client_upsert env _ _ (store w)) as [[e | []] s'].
        { unfold QdrantProvider.upsert_failed, throw.
          destruct (json_stringify env e); discriminate. }
        intros H. injection H as <- <-. simpl.
        rewrite Hids, <- Hlen.
        replace (uuid_count w + length B - uuid_count w)%nat
          with (length B) by lia.
        split; [reflexivity | lia].
Qed.

(** X23. With a generator that never produces the same value twice, the
    ids of two successive [addDocument] calls are all different, even for
    the same content: ingesting again makes new points. *)
Theorem addDocument_ids_never_repeat
    (content1 content2 : string)
    (metadata1 metadata2 : option (gmap string JsVal))
    (w w1 w2 : World Store Emb) (ids1 ids2 : list string) :
  (forall j k : nat, uuid env j = uuid env k -> j = k) ->
  QdrantProvider.addDocument env config content1 metadata1 w
  = (Done ids1, w1) ->
  QdrantProvider.addDocument env config content2 metadata2 w1
  = (Done ids2, w2) ->
  NoDup (ids1 ++ ids2).
Proof.
  intros Hinj H1 H2.
  destruct (addDocument_runs_on_chunks env config content1 metadata1)
    as (chunks1 & _ & Hc1).
  destruct (addDocument_runs_on_chunks env config content2 metadata2)
    as (chunks2 & _ & Hc2).
  rewrite Hc1 in H1. rewrite Hc2 in H2.
  apply addDocument_chunks_ids in H1 as [-> Hle1].
  apply addDocument_chunks_ids in H2 as [-> Hle2].
  rewrite <- map_app.
  replace (seq (uuid_count w) (uuid_count w1 - uuid_count w)
           ++ seq (uuid_count w1) (uuid_count w2 - uuid_count w1))
    with (seq (uuid_count w)
            ((uuid_count w1 - uuid_count w)
             + (uuid_count w2 - uuid_count w1))).
  - assert (Inj eq eq (uuid env)) by (intros j k; apply Hinj).
    apply (NoDup_fmap_2 (uuid env)), NoDup_seq.
  - rewrite seq_app. do 2 f_equal. lia.
Qed.

End FreshIdFacts.

Lemma Mock_uuid_injective (j k : nat) : Mock.uuid j = Mock.uuid k -> j = k.
Proof.
  unfold Mock.uuid. intros H. cbn [String.append] in H. injection H as H.
  apply DecimalNat.Unsigned.to_uint_inj.
  apply (f_equal NilEmpty.uint_of_string) in H.
  change (String.append "" ?x) with x in H.
  rewrite !NilEmpty.usu in H. injection H as H. exact H.
Qed.

Lemma addDocument_ids_never_repeat_witness :
  NoDup (["uuid-0"] ++ ["uuid-1"]).
Proof.
  apply (addDocument_ids_never_repeat Mock.env Mock.qdrant
           "UBC is a public research university."
           "UBC is a public research university."
           None None (Mock.world Mock.empty_store [])
           (snd (QdrantProvider.addDocument Mock.env Mock.qdrant
                   "UBC is a public research university." None
                   (Mock.world Mock.empty_store [])))
           (snd (QdrantProvider.addDocument Mock.env Mock.qdrant
                   "UBC is a public research university." None
                   (snd (QdrantProvider.addDocument Mock.env Mock.qdrant
                           "UBC is a public research university." None
                           (Mock.world Mock.empty_store [])))))
           ["uuid-0"] ["uuid-1"] Mock_uuid_injective).
  - vm_compute. reflexivity.
  - vm_compute. reflexivity.
Defined.

Section TeardownMatchFacts.

Context {Store Emb : Type}.
Variable env : Env Store Emb.
Variable config : QdrantConfig.

(** X24. When the deletion of the collection throws an [Error],
    [deleteStorage] returns normally exactly when the message contains the
    words "not found", in any mix of upper and lower case; otherwise it
    raises. A thrown value that is not an [Error] is always raised. *)
Theorem deleteStorage_swallows_exactly_not_found (w : World Store Emb)
    (s' : Store) :
  (forall message : string,
     client_deleteCollection env (collectionName config) (store w)
     = (inl (ErrorObj message), s') ->
     (fst (QdrantProvider.deleteStorage env config w) = Done tt
      <-> exists pre mid post : string,
            message = String.append pre (String.append mid post)
            /\ lower mid = "not found")
     /\ (fst (QdrantProvider.deleteStorage env config w) = Done tt
         \/ fst (QdrantProvider.deleteStorage env config w)
            = Raised (ErrorObj (String.append
                        "Qdrant collection deletion failed: " message))))
  /\ (forall rendering : string,
        client_deleteCollection env (collectionName config) (store w)
        = (inl (NonError rendering), s') ->
        fst (QdrantProvider.deleteStorage env config w)
        = Raised (ErrorObj (String.append
                    "Qdrant collection deletion failed: " rendering))).
Proof.
  split.
  - intros message H.
    rewrite (deleteStorage_run env config w _ s' H). cbv zeta. simpl.
    rewrite <- test_not_found_iff.
    destruct (test_not_found message); simpl.
    + split; [split; reflexivity | left; reflexivity].
    + split; [split; discriminate | right; reflexivity].
  - intros rendering H.
    rewrite (deleteStorage_run env config w _ s' H). reflexivity.
Qed.

End TeardownMatchFacts.

Lemma deleteStorage_swallows_exactly_not_found_witness :
  fst (QdrantProvider.deleteStorage Mock.env Mock.qdrant
         (Mock.world MockInit.absent_store []))
  = Done tt
  /\ exists pre mid post : string,
       "Not found: Collection `docs` doesn't exist!"
       = String.append pre (String.append mid post)
       /\ lower mid = "not found".
Proof.
  assert (H : fst (QdrantProvider.deleteStorage Mock.env Mock.qdrant
                     (Mock.world MockInit.absent_store [])) = Done tt)
    by reflexivity.
  split; [exact H |].
  apply (proj1 (proj1 (deleteStorage_swallows_exactly_not_found Mock.env
                         Mock.qdrant (Mock.world MockInit.absent_store [])
                         MockInit.absent_store)
                  "Not found: Collection `docs` doesn't exist!" eq_refl)).
  exact H.
Defined.
